(** * jakkserv: a shallow embedding of [main.go]

    The server has four routes ([/ip], [/notify], [/puturl], [/geturl]), a
    shared-secret wrapper around the two mutating ones, an SQLite table of
    [(tag, url)] rows and an INI configuration checked at startup.

    The Go packages the program calls are modelled first, one module per
    package and only as far as [main.go] uses them; the functions of
    [main.go] follow under their own names; the properties come last. *)

From Stdlib Require Import ZArith NArith List String Ascii Bool Lia.
From stdpp Require Import base option list strings gmap.
Import ListNotations.

Set Warnings "-register-all".

Local Open Scope string_scope.
Local Open Scope list_scope.

(** ** Package [unicode/utf8] and [unicode.IsSpace] *)

Module UTF8.

Definition byte_val (c : ascii) : Z := Z.of_N (N_of_ascii c).
Definition byte_of (z : Z) : ascii := ascii_of_N (Z.to_N (z mod 256)).

Definition RuneError : Z := 0xFFFD.
Definition RuneSelf : Z := 0x80.
Definition MaxRune : Z := 0x10FFFF.

Definition between (lo x hi : Z) : bool := (lo <=? x)%Z && (x <=? hi)%Z.

(** The table [first] together with [acceptRanges]: for a leading byte,
    the length of the sequence and the range allowed for the second
    byte; [None] for a byte that cannot start a multi-byte sequence. *)
Definition first (s0 : Z) : option (nat * Z * Z) :=
  if between 0xC2 s0 0xDF then Some (2%nat, 0x80, 0xBF)%Z
  else if (s0 =? 0xE0)%Z then Some (3%nat, 0xA0, 0xBF)%Z
  else if between 0xE1 s0 0xEC then Some (3%nat, 0x80, 0xBF)%Z
  else if (s0 =? 0xED)%Z then Some (3%nat, 0x80, 0x9F)%Z
  else if between 0xEE s0 0xEF then Some (3%nat, 0x80, 0xBF)%Z
  else if (s0 =? 0xF0)%Z then Some (4%nat, 0x90, 0xBF)%Z
  else if between 0xF1 s0 0xF3 then Some (4%nat, 0x80, 0xBF)%Z
  else if (s0 =? 0xF4)%Z then Some (4%nat, 0x80, 0x8F)%Z
  else None.

(** A continuation byte, [locb <= b <= hicb]. *)
Definition cont (b : Z) : bool := between 0x80 b 0xBF.

(** [utf8.DecodeRuneInString]: the first rune and its width in bytes;
    [(RuneError, 0)] on the empty string, [(RuneError, 1)] on a byte
    sequence that is not UTF-8. *)
Definition DecodeRuneInString (s : string) : Z * nat :=
  match s with
  | EmptyString => (RuneError, 0%nat)
  | String c0 t0 =>
      let s0 := byte_val c0 in
      if (s0 <? RuneSelf)%Z then (s0, 1%nat)
      else match first s0 with
           | None => (RuneError, 1%nat)
           | Some (sz, lo, hi) =>
               match t0 with
               | EmptyString => (RuneError, 1%nat)
               | String c1 t1 =>
                   let s1 := byte_val c1 in
                   if negb (between lo s1 hi) then (RuneError, 1%nat)
                   else if (sz <=? 2)%nat then
                     (Z.lor (Z.shiftl (Z.land s0 0x1F) 6) (Z.land s1 0x3F), 2%nat)
                   else match t1 with
                        | EmptyString => (RuneError, 1%nat)
                        | String c2 t2 =>
                            let s2 := byte_val c2 in
                            if negb (cont s2) then (RuneError, 1%nat)
                            else if (sz <=? 3)%nat then
                              (Z.lor (Z.shiftl (Z.land s0 0x0F) 12)
                                 (Z.lor (Z.shiftl (Z.land s1 0x3F) 6)
                                    (Z.land s2 0x3F)), 3%nat)
                            else match t2 with
                                 | EmptyString => (RuneError, 1%nat)
                                 | String c3 _ =>
                                     let s3 := byte_val c3 in
                                     if negb (cont s3) then (RuneError, 1%nat)
                                     else
                                       (Z.lor (Z.shiftl (Z.land s0 0x07) 18)
                                          (Z.lor (Z.shiftl (Z.land s1 0x3F) 12)
                                             (Z.lor (Z.shiftl (Z.land s2 0x3F) 6)
                                                (Z.land s3 0x3F))), 4%nat)
                                 end
                        end
               end
           end
  end.

(** [utf8.RuneStart]. *)
Definition RuneStart (b : Z) : bool := negb (Z.land b 0xC0 =? 0x80)%Z.

(** [utf8.DecodeLastRuneInString], on the bytes of the string in reverse
    order ([r0] is the last byte). The Go loop walks back over at most
    [UTFMax - 1] further bytes to the nearest byte that can start a
    rune, decodes from there and accepts the rune only if it ends
    exactly at the end of the string. *)
Definition DecodeLastRune (rev_s : list ascii) : Z * nat :=
  match rev_s with
  | [] => (RuneError, 0%nat)
  | r0 :: t0 =>
      if (byte_val r0 <? RuneSelf)%Z then (byte_val r0, 1%nat)
      else
        let try (k : nat) (bytes : list ascii) :=
          let '(r, size) := DecodeRuneInString (string_of_list_ascii bytes) in
          if (size =? k)%nat then (r, size) else (RuneError, 1%nat) in
        match t0 with
        | [] => (RuneError, 1%nat)
        | r1 :: t1 =>
            if RuneStart (byte_val r1) then try 2%nat [r1; r0]
            else match t1 with
                 | [] => (RuneError, 1%nat)
                 | r2 :: t2 =>
                     if RuneStart (byte_val r2) then try 3%nat [r2; r1; r0]
                     else match t2 with
                          | [] => (RuneError, 1%nat)
                          | r3 :: _ =>
                              if RuneStart (byte_val r3)
                              then try 4%nat [r3; r2; r1; r0]
                              else (RuneError, 1%nat)
                          end
                 end
        end
  end.

(** [utf8.EncodeRune] / [utf8.AppendRune]. *)
Definition EncodeRune (r : Z) : string :=
  let three (r : Z) :=
    String (byte_of (Z.lor 0xE0 (Z.shiftr r 12)))
      (String (byte_of (Z.lor 0x80 (Z.land (Z.shiftr r 6) 0x3F)))
         (String (byte_of (Z.lor 0x80 (Z.land r 0x3F))) "")) in
  if between 0 r 0x7F then String (byte_of r) ""
  else if between 0 r 0x7FF then
    String (byte_of (Z.lor 0xC0 (Z.shiftr r 6)))
      (String (byte_of (Z.lor 0x80 (Z.land r 0x3F))) "")
  else if (r <? 0)%Z || (MaxRune <? r)%Z || between 0xD800 r 0xDFFF
  then three RuneError
  else if (r <=? 0xFFFF)%Z then three r
  else
    String (byte_of (Z.lor 0xF0 (Z.shiftr r 18)))
      (String (byte_of (Z.lor 0x80 (Z.land (Z.shiftr r 12) 0x3F)))
         (String (byte_of (Z.lor 0x80 (Z.land (Z.shiftr r 6) 0x3F)))
            (String (byte_of (Z.lor 0x80 (Z.land r 0x3F))) ""))).

(** [unicode.IsSpace]: the Latin-1 cases, then the [White_Space]
    property outside Latin-1. *)
Definition IsSpace (r : Z) : bool :=
  if (r <=? 0xFF)%Z then
    (r =? 0x09)%Z || (r =? 0x0A)%Z || (r =? 0x0B)%Z || (r =? 0x0C)%Z
    || (r =? 0x0D)%Z || (r =? 0x20)%Z || (r =? 0x85)%Z || (r =? 0xA0)%Z
  else
    (r =? 0x1680)%Z || between 0x2000 r 0x200A || (r =? 0x2028)%Z
    || (r =? 0x2029)%Z || (r =? 0x202F)%Z || (r =? 0x205F)%Z
    || (r =? 0x3000)%Z.

End UTF8.

(** ** Package [strings] *)

Module Str.

(** [strings.Split(s, sep)] for a one-byte separator, which is what both
    call sites of [main.go] pass (":" and ","): the fields between the
    occurrences of [sep], always at least one. *)
Fixpoint Split (s : string) (sep : ascii) : list string :=
  match s with
  | EmptyString => [ "" ]
  | String c s' =>
      if Ascii.eqb c sep then "" :: Split s' sep
      else match Split s' sep with
           | f :: fs => String c f :: fs
           | [] => [ String c "" ]
           end
  end.

(** [strings.Join(elems, sep)]. *)
Fixpoint Join (elems : list string) (sep : string) : string :=
  match elems with
  | [] => ""
  | [ e ] => e
  | e :: es => e +:+ sep +:+ Join es sep
  end.

(** [strings.Contains] for a one-byte needle. *)
Fixpoint ContainsByte (s : string) (b : ascii) : bool :=
  match s with
  | EmptyString => false
  | String c s' => Ascii.eqb c b || ContainsByte s' b
  end.

(** [strings.TrimLeftFunc(s, unicode.IsSpace)]: runes are dropped from
    the front while they are white space; [skip] counts the remaining
    bytes of a rune that is being dropped. *)
Fixpoint TrimLeftSpace (skip : nat) (s : string) : string :=
  match s with
  | EmptyString => ""
  | String _ s' =>
      match skip with
      | S k => TrimLeftSpace k s'
      | O =>
          let '(r, size) := UTF8.DecodeRuneInString s in
          if UTF8.IsSpace r then TrimLeftSpace (Nat.pred size) s' else s
      end
  end.

(** [strings.TrimRightFunc(s, unicode.IsSpace)], on the reversed bytes:
    runes are dropped from the back while they are white space. *)
Fixpoint TrimRightSpace (skip : nat) (rev_s : list ascii) : list ascii :=
  match rev_s with
  | [] => []
  | _ :: t =>
      match skip with
      | S k => TrimRightSpace k t
      | O =>
          let '(r, size) := UTF8.DecodeLastRune rev_s in
          if UTF8.IsSpace r then TrimRightSpace (Nat.pred size) t else rev_s
      end
  end.

(** [strings.TrimSpace]. *)
Definition TrimSpace (s : string) : string :=
  string_of_list_ascii
    (rev (TrimRightSpace 0
            (rev (list_ascii_of_string (TrimLeftSpace 0 s))))).

End Str.

(** ** Package [encoding/json], as far as [Decoder.Decode] into a struct
       of two string fields goes *)

Module JSON.

(** A JSON text, after scanning. *)
Inductive Value : Type :=
| Null
| Bool (b : bool)
| Num (lit : string)
| Str (s : string)
| Arr (elems : list Value)
| Obj (members : list (string * Value)).

(** The errors [Decode] returns. *)
Inductive Error : Type :=
| SyntaxError
| ErrEOF                      (* io.EOF: nothing but white space was read *)
| ErrUnexpectedEOF            (* io.ErrUnexpectedEOF *)
| UnmarshalTypeError (value : string).

Definition quote : ascii := "034"%char.
Definition backslash : ascii := "092"%char.

(** [isSpace] of scanner.go. *)
Definition isSpace (c : ascii) : bool :=
  Ascii.eqb c " " || Ascii.eqb c "009" || Ascii.eqb c "013" || Ascii.eqb c "010".

Definition isDigit (c : ascii) : bool :=
  UTF8.between 48 (UTF8.byte_val c) 57.
Definition isDigit19 (c : ascii) : bool :=
  UTF8.between 49 (UTF8.byte_val c) 57.

(** The value of a hexadecimal digit, as [getu4] reads it. *)
Definition hexval (c : ascii) : option Z :=
  let b := UTF8.byte_val c in
  if UTF8.between 48 b 57 then Some (b - 48)%Z
  else if UTF8.between 97 b 102 then Some (b - 97 + 10)%Z
  else if UTF8.between 65 b 70 then Some (b - 65 + 10)%Z
  else None.

(** *** The scanner

    scanner.go is a pushdown automaton fed one byte at a time: a [step]
    function (here the constructors of [Lex]) and a stack [parseState]
    (here [Frame], which also collects the values read so far). *)

Inductive NumState : Type :=
| sNeg | s0 | s1 | sDot | sDot0 | sE | sESign | sE0.

Inductive Lex : Type :=
| BeginValue
| BeginValueOrEmpty
| BeginStringOrEmpty
| BeginString
| InString (raw_rev : list ascii)
| InStringEsc (raw_rev : list ascii)
| InStringEscU (need : nat) (raw_rev : list ascii)
| InNumber (st : NumState) (lit_rev : list ascii)
| InLiteral (rest : list ascii) (v : Value)
| EndValue.

Inductive Frame : Type :=
| FArr (elems_rev : list Value)                       (* parseArrayValue *)
| FObjKey (members_rev : list (string * Value))       (* parseObjectKey, key not read yet *)
| FObjColon (members_rev : list (string * Value)) (key : string)
                                                      (* parseObjectKey, key read *)
| FObjValue (members_rev : list (string * Value)) (key : string)
                                                      (* parseObjectValue, value not read yet *)
| FObjNext (members_rev : list (string * Value)).     (* parseObjectValue, value read *)

Inductive Scan : Type :=
| Scanning (l : Lex) (stack : list Frame)
| Done (v : Value)            (* scanEnd: the top-level value is complete *)
| Failed.                     (* scanError *)

Definition maxNestingDepth : Z := 10000.

(** [pushParseState]. *)
Definition push (f : Frame) (stack : list Frame) (l : Lex) : Scan :=
  if (Z.of_nat (length (f :: stack)) <=? maxNestingDepth)%Z
  then Scanning l (f :: stack) else Failed.

(** [getu4]: the code unit of a [\uXXXX] escape at the front of [s], with
    what follows the escape. *)
Definition getu4 (s : list ascii) : option (Z * list ascii) :=
  match s with
  | b :: u :: h1 :: h2 :: h3 :: h4 :: rest =>
      if Ascii.eqb b backslash && Ascii.eqb u "u" then
        match hexval h1, hexval h2, hexval h3, hexval h4 with
        | Some a, Some b, Some c, Some d =>
            Some ((((a * 16 + b) * 16 + c) * 16 + d)%Z, rest)
        | _, _, _, _ => None
        end
      else None
  | _ => None
  end.

Definition IsSurrogate (r : Z) : bool := UTF8.between 0xD800 r 0xDFFF.

(** [utf16.DecodeRune]. *)
Definition utf16_DecodeRune (r1 r2 : Z) : Z :=
  if UTF8.between 0xD800 r1 0xDBFF && UTF8.between 0xDC00 r2 0xDFFF
  then (Z.lor (Z.shiftl (r1 - 0xD800) 10) (r2 - 0xDC00) + 0x10000)%Z
  else UTF8.RuneError.

(** [unquote]: the contents of a string literal the scanner has accepted,
    with the escapes replaced and invalid UTF-8 coerced to U+FFFD. A
    surrogate escape is joined with the escape after it when the two make
    a pair, and is U+FFFD otherwise. [copy] counts the bytes of a valid
    multi-byte rune still to be copied. *)
Fixpoint unquote (copy : nat) (s : list ascii) : string :=
  match s with
  | [] => ""
  | c :: rest =>
      match copy with
      | S k => String c (unquote k rest)
      | O =>
          if Ascii.eqb c backslash then
            match rest with
            | [] => ""
            | e :: rest1 =>
                if Ascii.eqb e "u" then
                  match rest1 with
                  | h1 :: h2 :: h3 :: h4 :: rest2 =>
                      match getu4 s with
                      | None => ""
                      | Some (rr, _) =>
                          if IsSurrogate rr then
                            match rest2 with
                            | b' :: u' :: k1 :: k2 :: k3 :: k4 :: rest3 =>
                                match getu4 rest2 with
                                | Some (rr1, _) =>
                                    let dec := utf16_DecodeRune rr rr1 in
                                    if (dec =? UTF8.RuneError)%Z
                                    then UTF8.EncodeRune UTF8.RuneError +:+ unquote 0 rest2
                                    else UTF8.EncodeRune dec +:+ unquote 0 rest3
                                | None =>
                                    UTF8.EncodeRune UTF8.RuneError +:+ unquote 0 rest2
                                end
                            | _ => UTF8.EncodeRune UTF8.RuneError +:+ unquote 0 rest2
                            end
                          else UTF8.EncodeRune rr +:+ unquote 0 rest2
                      end
                  | _ => ""
                  end
                else
                  let d :=
                    if Ascii.eqb e "b" then "008"%char
                    else if Ascii.eqb e "f" then "012"%char
                    else if Ascii.eqb e "n" then "010"%char
                    else if Ascii.eqb e "r" then "013"%char
                    else if Ascii.eqb e "t" then "009"%char
                    else e in
                  String d (unquote 0 rest1)
            end
          else if (UTF8.byte_val c <? UTF8.RuneSelf)%Z then String c (unquote 0 rest)
          else
            let '(r, size) := UTF8.DecodeRuneInString (string_of_list_ascii s) in
            if (size =? 1)%nat
            then UTF8.EncodeRune UTF8.RuneError +:+ unquote 0 rest
            else String c (unquote (Nat.pred size) rest)
      end
  end.

(** A value is complete: it goes into the frame on top of the stack, or
    ends the scan when there is none ([stateEndTop]). A string read
    where a key is expected becomes the pending key. *)
Definition emit (v : Value) (stack : list Frame) : Scan :=
  match stack with
  | [] => Done v
  | FArr es :: st => Scanning EndValue (FArr (v :: es) :: st)
  | FObjValue ms k :: st => Scanning EndValue (FObjNext ((k, v) :: ms) :: st)
  | FObjKey ms :: st =>
      match v with
      | Str k => Scanning EndValue (FObjColon ms k :: st)
      | _ => Failed
      end
  | _ => Failed
  end.

(** [stateEndValue] below the top level. *)
Definition endValue (c : ascii) (stack : list Frame) : Scan :=
  if isSpace c then Scanning EndValue stack
  else match stack with
       | FObjColon ms k :: st =>
           if Ascii.eqb c ":" then Scanning BeginValue (FObjValue ms k :: st)
           else Failed
       | FObjNext ms :: st =>
           if Ascii.eqb c "," then Scanning BeginString (FObjKey ms :: st)
           else if Ascii.eqb c "}" then emit (Obj (rev ms)) st
           else Failed
       | FArr es :: st =>
           if Ascii.eqb c "," then Scanning BeginValue stack
           else if Ascii.eqb c "]" then emit (Arr (rev es)) st
           else Failed
       | _ => Failed
       end.

(** A number ends at the first byte that cannot continue it; that byte
    is then read by [stateEndValue]. At the top level any byte ends the
    scan. *)
Definition endNumber (lit_rev : list ascii) (c : ascii) (stack : list Frame) : Scan :=
  match emit (Num (string_of_list_ascii (rev lit_rev))) stack with
  | Scanning EndValue stack' => endValue c stack'
  | other => other
  end.

(** [stateBeginValue]. *)
Definition beginValue (c : ascii) (stack : list Frame) : Scan :=
  if isSpace c then Scanning BeginValue stack
  else if Ascii.eqb c "{" then push (FObjKey []) stack BeginStringOrEmpty
  else if Ascii.eqb c "[" then push (FArr []) stack BeginValueOrEmpty
  else if Ascii.eqb c quote then Scanning (InString []) stack
  else if Ascii.eqb c "-" then Scanning (InNumber sNeg [c]) stack
  else if Ascii.eqb c "0" then Scanning (InNumber s0 [c]) stack
  else if Ascii.eqb c "t"
  then Scanning (InLiteral (list_ascii_of_string "rue") (Bool true)) stack
  else if Ascii.eqb c "f"
  then Scanning (InLiteral (list_ascii_of_string "alse") (Bool false)) stack
  else if Ascii.eqb c "n"
  then Scanning (InLiteral (list_ascii_of_string "ull") Null) stack
  else if isDigit19 c then Scanning (InNumber s1 [c]) stack
  else Failed.

(** [stateBeginString]. *)
Definition beginString (c : ascii) (stack : list Frame) : Scan :=
  if isSpace c then Scanning BeginString stack
  else if Ascii.eqb c quote then Scanning (InString []) stack
  else Failed.

Definition isExp (c : ascii) : bool := Ascii.eqb c "e" || Ascii.eqb c "E".

(** The states [stateNeg], [state1], [state0], [stateDot], [stateDot0],
    [stateE], [stateESign] and [stateE0]. *)
Definition stepNumber (st : NumState) (lit_rev : list ascii) (c : ascii)
    (stack : list Frame) : Scan :=
  let continue st' := Scanning (InNumber st' (c :: lit_rev)) stack in
  let state0 :=
    if Ascii.eqb c "." then continue sDot
    else if isExp c then continue sE
    else endNumber lit_rev c stack in
  let stateESign := if isDigit c then continue sE0 else Failed in
  match st with
  | sNeg =>
      if Ascii.eqb c "0" then continue s0
      else if isDigit19 c then continue s1
      else Failed
  | s1 => if isDigit c then continue s1 else state0
  | s0 => state0
  | sDot => if isDigit c then continue sDot0 else Failed
  | sDot0 =>
      if isDigit c then continue sDot0
      else if isExp c then continue sE
      else endNumber lit_rev c stack
  | sE =>
      if Ascii.eqb c "+" || Ascii.eqb c "-" then continue sESign
      else stateESign
  | sESign => stateESign
  | sE0 => if isDigit c then continue sE0 else endNumber lit_rev c stack
  end.

(** One byte of input: [s.step(s, c)]. *)
Definition step (l : Lex) (stack : list Frame) (c : ascii) : Scan :=
  match l with
  | BeginValue => beginValue c stack
  | BeginValueOrEmpty =>
      if isSpace c then Scanning BeginValueOrEmpty stack
      else if Ascii.eqb c "]" then
        match stack with
        | FArr es :: st => emit (Arr (rev es)) st
        | _ => Failed
        end
      else beginValue c stack
  | BeginStringOrEmpty =>
      if isSpace c then Scanning BeginStringOrEmpty stack
      else if Ascii.eqb c "}" then
        match stack with
        | FObjKey ms :: st => emit (Obj (rev ms)) st
        | _ => Failed
        end
      else beginString c stack
  | BeginString => beginString c stack
  | InString raw =>
      if Ascii.eqb c quote then emit (Str (unquote 0 (rev raw))) stack
      else if Ascii.eqb c backslash then Scanning (InStringEsc (c :: raw)) stack
      else if (UTF8.byte_val c <? 32)%Z then Failed
      else Scanning (InString (c :: raw)) stack
  | InStringEsc raw =>
      if Ascii.eqb c "b" || Ascii.eqb c "f" || Ascii.eqb c "n" || Ascii.eqb c "r"
         || Ascii.eqb c "t" || Ascii.eqb c backslash || Ascii.eqb c "/"
         || Ascii.eqb c quote
      then Scanning (InString (c :: raw)) stack
      else if Ascii.eqb c "u" then Scanning (InStringEscU 4 (c :: raw)) stack
      else Failed
  | InStringEscU need raw =>
      match hexval c with
      | None => Failed
      | Some _ =>
          match need with
          | S (S k) => Scanning (InStringEscU (S k) (c :: raw)) stack
          | _ => Scanning (InString (c :: raw)) stack
          end
      end
  | InNumber st lit => stepNumber st lit c stack
  | InLiteral rest v =>
      match rest with
      | [] => Failed
      | x :: rest' =>
          if Ascii.eqb c x then
            match rest' with
            | [] => emit v stack
            | _ => Scanning (InLiteral rest' v) stack
            end
          else Failed
      end
  | EndValue => endValue c stack
  end.

(** The scanner run over the input until the first value is complete;
    what follows that value is not read. *)
Fixpoint scan (st : Scan) (s : string) : Scan :=
  match st, s with
  | Scanning l stack, String c s' => scan (step l stack c) s'
  | _, _ => st
  end.

Fixpoint nonSpace (s : string) : bool :=
  match s with
  | EmptyString => false
  | String c s' => negb (isSpace c) || nonSpace s'
  end.

(** [Decoder.readValue] on a reader that yields [body] and then EOF. At
    EOF the scanner is offered a space, which completes a top-level
    number; otherwise the error is [io.EOF] when nothing but white space
    was read and [io.ErrUnexpectedEOF] when more was. *)
Definition readValue (body : string) : Value + Error :=
  match scan (Scanning BeginValue []) body with
  | Done v => inl v
  | Failed => inr SyntaxError
  | Scanning l stack =>
      match step l stack " " with
      | Done v => inl v
      | _ => inr (if nonSpace body then ErrUnexpectedEOF else ErrEOF)
      end
  end.

(** *** Unmarshalling into [struct { A string `json:"a"`; B string `json:"b"` }] *)

Definition upper (c : ascii) : ascii :=
  if UTF8.between 97 (UTF8.byte_val c) 122
  then UTF8.byte_of (UTF8.byte_val c - 32) else c.

(** [foldName]: ASCII letters are upper-cased. (A rune outside ASCII folds
    to an ASCII letter only for K and S, which none of the field names of
    [main.go] contains, so on those names the comparison below is the
    one the decoder makes.) *)
Fixpoint foldName (s : string) : string :=
  match s with
  | EmptyString => ""
  | String c s' => String (upper c) (foldName s')
  end.

(** A key names a field when it equals its name exactly or after folding. *)
Definition matches (key field : string) : bool :=
  String.eqb key field || String.eqb (foldName key) (foldName field).

(** [literalStore] / [array] / [object] on a field of kind string: a
    string is stored, [null] leaves the field alone, anything else is an
    [UnmarshalTypeError] (the first one is kept, decoding goes on). *)
Definition store (cur : string) (v : Value) : string * option Error :=
  match v with
  | Str s => (s, None)
  | Null => (cur, None)
  | Bool _ => (cur, Some (UnmarshalTypeError "bool"))
  | Num _ => (cur, Some (UnmarshalTypeError "number"))
  | Arr _ => (cur, Some (UnmarshalTypeError "array"))
  | Obj _ => (cur, Some (UnmarshalTypeError "object"))
  end.

Definition saveError (saved new : option Error) : option Error :=
  match saved with
  | Some e => Some e
  | None => new
  end.

Fixpoint object (fa fb : string) (members : list (string * Value))
    (a b : string) (saved : option Error) : string * string * option Error :=
  match members with
  | [] => (a, b, saved)
  | (key, v) :: rest =>
      if matches key fa then
        let '(a', e) := store a v in object fa fb rest a' b (saveError saved e)
      else if matches key fb then
        let '(b', e) := store b v in object fa fb rest a b' (saveError saved e)
      else object fa fb rest a b saved
  end.

(** [d.unmarshal] into the zero value of the struct. *)
Definition unmarshal (fa fb : string) (v : Value) : string * string + Error :=
  match v with
  | Null => inl ("", "")
  | Obj members =>
      match object fa fb members "" "" None with
      | (a, b, None) => inl (a, b)
      | (_, _, Some e) => inr e
      end
  | Bool _ => inr (UnmarshalTypeError "bool")
  | Num _ => inr (UnmarshalTypeError "number")
  | Str _ => inr (UnmarshalTypeError "string")
  | Arr _ => inr (UnmarshalTypeError "array")
  end.

(** [json.NewDecoder(body).Decode(&params)] for a struct [params] with two
    string fields tagged [fa] and [fb], both empty before the call. *)
Definition Decode (body : string) (fa fb : string) : string * string + Error :=
  match readValue body with
  | inl v => unmarshal fa fb v
  | inr e => inr e
  end.

(** *** [json.Valid]

    [checkValid] of scanner.go feeds the whole input to the same scanner:
    after the top-level value only white space may follow, and the byte
    that ends a number which is itself the top-level value has to be white
    space too. At the end of
    the input the scanner is offered a space, as in [scanner.eof].
    [main.go] does not call [Valid]; it is what the properties below mean
    by a body that is JSON. *)
Fixpoint checkValid (l : Lex) (stack : list Frame) (s : string) : bool :=
  match s with
  | EmptyString =>
      match step l stack " " with
      | Done _ => true
      | _ => false
      end
  | String c s' =>
      match step l stack c with
      | Scanning l' stack' => checkValid l' stack' s'
      | Done _ =>
          match l, stack with
          | InNumber _ _, [] => isSpace c
          | _, _ => true
          end && negb (nonSpace s')
      | Failed => false
      end
  end.

Definition Valid (data : string) : bool := checkValid BeginValue [] data.

End JSON.

(** ** Package [net/textproto] *)

Module Textproto.

(** [validHeaderFieldByte]: the token characters of RFC 7230. *)
Definition validHeaderFieldByte (c : ascii) : bool :=
  let b := UTF8.byte_val c in
  UTF8.between 48 b 57 || UTF8.between 65 b 90 || UTF8.between 97 b 122
  || Str.ContainsByte "!#$%&'*+-.^_`|~" c.

Fixpoint allValid (s : string) : bool :=
  match s with
  | EmptyString => true
  | String c s' => validHeaderFieldByte c && allValid s'
  end.

(** The loop of [canonicalMIMEHeaderKey]: upper case for the first letter
    and for a letter after a dash, lower case elsewhere. *)
Fixpoint canonicalize (upper : bool) (s : string) : string :=
  match s with
  | EmptyString => ""
  | String c s' =>
      let b := UTF8.byte_val c in
      let c' :=
        if upper && UTF8.between 97 b 122 then UTF8.byte_of (b - 32)
        else if negb upper && UTF8.between 65 b 90 then UTF8.byte_of (b + 32)
        else c in
      String c' (canonicalize (Ascii.eqb c' "-") s')
  end.

(** [textproto.CanonicalMIMEHeaderKey]: a key with a byte that is not a
    token character is returned unchanged. *)
Definition CanonicalMIMEHeaderKey (s : string) : string :=
  if allValid s then canonicalize true s else s.

End Textproto.

(** ** Package [path] *)

Module PathPkg.

(** The elements of a rooted path that [path.Clean] keeps: empty elements
    (from doubled slashes) and [.] go, [..] takes the element before it
    with it, and at the root just goes. [stack_rev] holds the elements
    kept so far, last first. *)
Fixpoint clean_elems (stack_rev : list string) (elems : list string)
    : list string :=
  match elems with
  | [] => rev stack_rev
  | e :: rest =>
      if String.eqb e "" || String.eqb e "." then clean_elems stack_rev rest
      else if String.eqb e ".." then clean_elems (tail stack_rev) rest
      else clean_elems (e :: stack_rev) rest
  end.

(** [path.Clean] on a rooted path (one that starts with a slash), the only
    kind [cleanPath] of net/http calls it on. *)
Definition Clean (p : string) : string :=
  "/" +:+ Str.Join (clean_elems [] (Str.Split p "/")) "/".

End PathPkg.

(** ** Package [net/url] and the request side of [net/http] *)

Module HTTP.

Definition StatusOK : Z := 200.
Definition StatusMovedPermanently : Z := 301.
Definition StatusFound : Z := 302.
Definition StatusBadRequest : Z := 400.
Definition StatusUnauthorized : Z := 401.
Definition StatusNotFound : Z := 404.
Definition StatusMethodNotAllowed : Z := 405.
Definition StatusInternalServerError : Z := 500.

Definition MethodPost : string := "POST".

(** [url.Values] and [http.Header] are both [map[string][]string]. *)
Abbreviation Values := (gmap string (list string)).

(** [url.URL], with [Query] standing for the parsed query that
    [r.URL.Query()] returns. *)
Record URL : Type := mkURL {
  Path : string;
  Query : Values
}.

(** [http.Request], the fields [main.go] reads. The keys of [Header] are
    in canonical form, as the server stores them. *)
Record Request : Type := mkRequest {
  Method : string;
  Url : URL;
  Header : Values;
  Body : string;
  RemoteAddr : string
}.

(** [Values.Get] and the lookup underneath [Header.Get]: the first value
    under the key, the empty string when there is none. *)
Definition Values_Get (v : Values) (key : string) : string :=
  match v !! key with
  | Some (x :: _) => x
  | _ => ""
  end.

(** [Header.Get], which canonicalizes the key it is given. *)
Definition Header_Get (h : Values) (key : string) : string :=
  Values_Get h (Textproto.CanonicalMIMEHeaderKey key).

(** Whether the last byte of a string is a slash. *)
Fixpoint endsWithSlash (p : string) : bool :=
  match p with
  | EmptyString => false
  | String c EmptyString => Ascii.eqb c "/"
  | String _ p' => endsWithSlash p'
  end.

(** [cleanPath] of server.go: the canonical form of a request path, rooted,
    without doubled slashes and without [.] and [..] elements, a trailing
    slash kept. *)
Definition cleanPath (p : string) : string :=
  match p with
  | EmptyString => "/"
  | String c _ =>
      let p := if Ascii.eqb c "/" then p else "/" +:+ p in
      let np := PathPkg.Clean p in
      if endsWithSlash p && negb (String.eqb np "/") then np +:+ "/" else np
  end.

End HTTP.

(** ** Package [gopkg.in/ini.v1] *)

Module INI.

(** A loaded file: section name to key name to the value that
    [Key.String()] yields. *)
Abbreviation File := (gmap string (gmap string string)).

(** [f.Section(section).Key(key).String()]. [Section] and [Key] never
    return nil: a section or a key that the file does not have reads as
    an empty one. *)
Definition String_ (f : File) (section key : string) : string :=
  match f !! section with
  | Some sec => default "" (sec !! key)
  | None => ""
  end.

End INI.

(** ** Package [database/sql] over the sqlite3 driver *)

Module SQL.

(** A row of [entries(id INTEGER PRIMARY KEY AUTOINCREMENT, tag TEXT UNIQUE,
    url TEXT)]. The program only ever binds Go strings, so the text
    columns hold strings. *)
Record Entry : Type := mkEntry {
  id : Z;
  tag : string;
  url : string
}.

(** What SQLite can do with the database file named by the configuration:
    open it for reading and writing, open it for reading only (a file or
    directory without write permission), or not open it at all. *)
Inductive Access : Type :=
| ReadWrite
| ReadOnly
| Unavailable.

(** The database file: how it can be accessed, and the rows of table
    [entries] when the table exists. *)
Record DB : Type := mkDB {
  access : Access;
  entries : option (list Entry)
}.

Inductive Error : Type :=
| ErrUnknownDriver            (* sql: unknown driver *)
| ErrNoRows                   (* sql.ErrNoRows *)
| ErrCantOpen                 (* unable to open database file *)
| ErrReadOnly                 (* attempt to write a readonly database *)
| ErrNoSuchTable              (* no such table: entries *)
| ErrConstraintUnique.        (* UNIQUE constraint failed: entries.tag *)

(** The drivers registered at program start: [main.go] imports
    [github.com/mattn/go-sqlite3] for its registration. *)
Definition drivers : list string := [ "sqlite3" ].

(** [sql.Open]: checks the driver name and nothing else; the file is not
    touched before the first statement. *)
Definition Open (driverName : string) (disk : DB) : DB + Error :=
  if existsb (String.eqb driverName) drivers then inl disk
  else inr ErrUnknownDriver.

(** [db.Exec] of
    [CREATE TABLE IF NOT EXISTS entries (id INTEGER PRIMARY KEY AUTOINCREMENT, tag TEXT UNIQUE, url TEXT);]
    A table that exists is left alone, which needs no write. *)
Definition Exec_create (db : DB) : DB * option Error :=
  match access db, entries db with
  | Unavailable, _ => (db, Some ErrCantOpen)
  | ReadWrite, rows => (mkDB ReadWrite (Some (default [] rows)), None)
  | ReadOnly, Some _ => (db, None)
  | ReadOnly, None => (db, Some ErrReadOnly)
  end.

Definition has_tag (t : string) (rows : list Entry) : bool :=
  existsb (fun e => String.eqb (tag e) t) rows.

(** The rowid an AUTOINCREMENT column gives the next row: one more than
    the largest so far (rows are never deleted). *)
Definition next_id (rows : list Entry) : Z :=
  (1 + fold_right Z.max 0 (map id rows))%Z.

(** [db.Exec("INSERT INTO entries (tag, url) VALUES (?, ?)", t, u)]: the
    statement needs the table and a database that can be written, and the
    UNIQUE constraint on [tag] rejects a tag some row already has. *)
Definition Exec_insert (db : DB) (t u : string) : DB * option Error :=
  match access db, entries db with
  | Unavailable, _ => (db, Some ErrCantOpen)
  | _, None => (db, Some ErrNoSuchTable)
  | ReadOnly, Some _ => (db, Some ErrReadOnly)
  | ReadWrite, Some rows =>
      if has_tag t rows then (db, Some ErrConstraintUnique)
      else (mkDB ReadWrite (Some (rows ++ [ mkEntry (next_id rows) t u ])), None)
  end.

(** [db.QueryRow("SELECT url FROM entries WHERE tag = ?", t).Scan(&url)]:
    reading needs the file to be opened, not to be writable. *)
Definition QueryRow_url (db : DB) (t : string) : string + Error :=
  match access db, entries db with
  | Unavailable, _ => inr ErrCantOpen
  | _, None => inr ErrNoSuchTable
  | _, Some rows =>
      match find (fun e => String.eqb (tag e) t) rows with
      | Some e => inl (url e)
      | None => inr ErrNoRows
      end
  end.

End SQL.

(** ** Package [net/smtp] *)

Module SMTP.

(** The arguments of one [smtp.SendMail] call, with those of the
    [smtp.PlainAuth] value passed to it. *)
Record Mail : Type := mkMail {
  addr : string;
  auth_identity : string;
  auth_username : string;
  auth_password : string;
  auth_host : string;
  from : string;
  to : list string;
  msg : string
}.

End SMTP.

(** ** What goes onto the [http.ResponseWriter] *)

(** A Go [error] value, by where it comes from. *)
Inductive error : Type :=
| JsonError (e : JSON.Error)
| SqlError (e : SQL.Error)
| SmtpError (e : string).

(** The text of a response: a literal, or a literal followed by
    [err.Error()]. *)
Inductive Message : Type :=
| Text (s : string)
| TextErr (s : string) (err : error).

(** The one call a handler of [main.go] makes on its [ResponseWriter], with
    its arguments. (What the library makes of them, such as the Location
    header [http.Redirect] derives from a relative url, is not modelled.)
    The last two are answers the [ServeMux] gives without calling a
    handler: its redirect to the cleaned form of the request path (the
    query goes along; status 301 in the net/http of Go 1.24, the first
    release whose [strings] package has the [SplitSeq] that [main.go]
    calls), and its bare status line for the request target [*]. *)
Inductive Response : Type :=
| http_Error (msg : Message) (code : Z)       (* http.Error(w, msg, code) *)
| fmt_Fprint (body : string)                  (* fmt.Fprint / fmt.Fprintf, status 200 *)
| http_Redirect (url : string) (code : Z)     (* http.Redirect(w, r, url, code) *)
| mux_Redirect (path : string)                (* RedirectHandler(cleaned path, 301) *)
| w_WriteHeader (code : Z).                   (* w.WriteHeader(code) *)

Definition StatusCode (resp : Response) : Z :=
  match resp with
  | http_Error _ code => code
  | fmt_Fprint _ => HTTP.StatusOK
  | http_Redirect _ code => code
  | mux_Redirect _ => HTTP.StatusMovedPermanently
  | w_WriteHeader code => code
  end.

(** ** The state the handlers run in *)

(** The globals [cfg] and [db] of [main.go], the mail handed over to the
    relay so far, and the relay itself: what [smtp.SendMail] answers for a
    given message ([None] when it was accepted). *)
Record World : Type := mkWorld {
  cfg : INI.File;
  db : SQL.DB;
  outbox : list SMTP.Mail;
  relay : SMTP.Mail -> option string
}.

Definition set_db (w : World) (d : SQL.DB) : World :=
  mkWorld (cfg w) d (outbox w) (relay w).

Definition set_outbox (w : World) (o : list SMTP.Mail) : World :=
  mkWorld (cfg w) (db w) o (relay w).

(** [http.HandlerFunc]. *)
Definition HandlerFunc : Type := World -> HTTP.Request -> Response * World.

(** * [main.go] *)

(** The strings Go writes as "\n" and "\r\n". *)
Definition LF : string := String "010"%char "".
Definition CRLF : string := String "013"%char LF.

(** [ipHandler]. The slice [sAddr[:len(sAddr)-1]] is in range because
    [strings.Split] returns at least one field. *)
Definition ipHandler : HandlerFunc := fun w r =>
  let sAddr := Str.Split (HTTP.RemoteAddr r) ":" in
  let addr := Str.Join (take (length sAddr - 1) sAddr) ":" in
  (fmt_Fprint addr, w).

(** The [recipients] loop of [notifyHandler]. *)
Definition recipients (sendto : string) : list string :=
  map Str.TrimSpace (Str.Split sendto ",").

(** [notifyHandler]. *)
Definition notifyHandler : HandlerFunc := fun w r =>
  if negb (String.eqb (HTTP.Method r) HTTP.MethodPost) then
    (http_Error (Text "Invalid request method") HTTP.StatusMethodNotAllowed, w)
  else
    match JSON.Decode (HTTP.Body r) "level" "body" with
    | inr err =>
        (http_Error (TextErr "Invalid request body: " (JsonError err))
           HTTP.StatusBadRequest, w)
    | inl (Level, Body) =>
        if String.eqb Level "" || String.eqb Body "" then
          (http_Error (Text "Invalid request body") HTTP.StatusBadRequest, w)
        else
          let smtp key := INI.String_ (cfg w) "smtp" key in
          let mail :=
            SMTP.mkMail
              (smtp "server" +:+ ":" +:+ smtp "port")
              "" (smtp "username") (smtp "password") (smtp "server")
              (smtp "username")
              (recipients (smtp "sendto"))
              (Level +:+ CRLF +:+ CRLF +:+ Body) in
          match relay w mail with
          | Some err =>
              (http_Error (TextErr "RequestFailed: " (SmtpError err))
                 HTTP.StatusInternalServerError, w)
          | None => (fmt_Fprint "success", set_outbox w (outbox w ++ [ mail ]))
          end
    end.

(** [saveHandler]. *)
Definition saveHandler : HandlerFunc := fun w r =>
  if negb (String.eqb (HTTP.Method r) HTTP.MethodPost) then
    (http_Error (Text "Invalid request method") HTTP.StatusMethodNotAllowed, w)
  else
    match JSON.Decode (HTTP.Body r) "tag" "url" with
    | inr err =>
        (http_Error (TextErr "Invalid request body: " (JsonError err))
           HTTP.StatusBadRequest, w)
    | inl (Tag, URL) =>
        match SQL.Exec_insert (db w) Tag URL with
        | (_, Some err) =>
            (http_Error (TextErr "Failed to save data: " (SqlError err))
               HTTP.StatusInternalServerError, w)
        | (db', None) => (fmt_Fprint "success", set_db w db')
        end
    end.

(** [retrieveHandler]. *)
Definition retrieveHandler : HandlerFunc := fun w r =>
  let tag := HTTP.Values_Get (HTTP.Query (HTTP.Url r)) "tag" in
  if String.eqb tag "" then
    (http_Error (Text "Tag is required") HTTP.StatusBadRequest, w)
  else
    match SQL.QueryRow_url (db w) tag with
    | inr SQL.ErrNoRows =>
        (http_Error (Text "No URL found for the given tag") HTTP.StatusNotFound, w)
    | inr err =>
        (http_Error (TextErr "Failed to retrieve data: " (SqlError err))
           HTTP.StatusInternalServerError, w)
    | inl url => (http_Redirect url HTTP.StatusFound, w)
    end.

(** [checkConfig]: the result and what it prints. [cfg.Section(section)] is
    never nil, so the first branch of the Go function is dead. *)
Fixpoint checkConfig (f : INI.File) (section : string) (keys : list string)
    : bool * string :=
  match keys with
  | [] => (true, "")
  | value :: keys' =>
      if String.eqb (INI.String_ f section value) "" then
        (false,
         "Missing key: '" +:+ value +:+ "' under section: " +:+ section +:+ LF)
      else checkConfig f section keys'
  end.

Definition smtpKeys : list string :=
  [ "server"; "port"; "username"; "password"; "sendto" ].

Definition generalKeys : list string :=
  [ "database"; "secret"; "authheader"; "sslport";
    "httpport"; "sslcert"; "sslkey"; "httpenabled";
    "sslenabled" ].

(** What [parseConfig] leaves in the global [cfg]: the loaded file, or nil
    (which reads as an empty file) when loading failed. *)
Definition loaded (load : INI.File + string) : INI.File :=
  match load with
  | inl f => f
  | inr _ => ∅
  end.

(** [parseConfig], given what [ini.Load("config.ini")] returned (the file,
    or the text of the error): its result and what it prints. *)
Definition parseConfig (load : INI.File + string) : bool * string :=
  match load with
  | inr err => (false, "Failed to load config file: " +:+ err)
  | inl f =>
      match checkConfig f "smtp" smtpKeys with
      | (false, out) => (false, out)
      | (true, out) =>
          match checkConfig f "general" generalKeys with
          | (false, out') => (false, out +:+ out')
          | (true, out') => (true, out +:+ out')
          end
      end
  end.

(** [authWrapper]. *)
Definition authWrapper (next : HandlerFunc) : HandlerFunc := fun w r =>
  let auth :=
    HTTP.Header_Get (HTTP.Header r) (INI.String_ (cfg w) "general" "authheader") in
  if String.eqb auth "" then
    (http_Error (Text "unauthorized") HTTP.StatusUnauthorized, w)
  else if negb (String.eqb auth (INI.String_ (cfg w) "general" "secret")) then
    (http_Error (Text "unauthorized") HTTP.StatusUnauthorized, w)
  else next w r.

(** [initDB], given the database file found on disk: the handle it leaves
    in [db], or the panic. The result of the [CREATE TABLE] statement,
    error included, is dropped. *)
Definition initDB (disk : SQL.DB) : SQL.DB + SQL.Error :=
  match SQL.Open "sqlite3" disk with
  | inr err => inr err
  | inl db => inl (fst (SQL.Exec_create db))
  end.

(** The calls [http.ListenAndServe] and [http.ListenAndServeTLS] that
    [main] starts goroutines for. (A listener that cannot bind ends the
    process with [os.Exit(1)]; whether it can is not part of this model.) *)
Inductive Listener : Type :=
| ListenAndServe (addr : string)
| ListenAndServeTLS (addr certFile keyFile : string).

(** The patterns registered with [http.HandleFunc]. *)
Definition ServeMux : Type := list (string * HandlerFunc).

(** What the environment gives [main]: the result of loading [config.ini],
    the database file and the mail relay. *)
Record Env : Type := mkEnv {
  load : INI.File + string;
  disk : SQL.DB;
  smtp_relay : SMTP.Mail -> option string
}.

(** How [main] ends up: [os.Exit], a panic, or blocked in [select {}] with
    the handlers registered and the listeners started. *)
Inductive Startup : Type :=
| Exit (code : Z) (stdout : string)
| Panic (err : SQL.Error)
| Serve (w : World) (mux : ServeMux) (listeners : list Listener).

(** The four [http.HandleFunc] calls of [main]. *)
Definition routes : ServeMux :=
  [ ("/ip", ipHandler);
    ("/notify", authWrapper notifyHandler);
    ("/puturl", authWrapper saveHandler);
    ("/geturl", retrieveHandler) ].

(** [main]. *)
Definition main (env : Env) : Startup :=
  match parseConfig (load env) with
  | (false, out) => Exit 1 out
  | (true, _) =>
      let f := loaded (load env) in
      match initDB (disk env) with
      | inr err => Panic err
      | inl d =>
          let general key := INI.String_ f "general" key in
          let plain :=
            if String.eqb (general "httpenabled") "true"
            then [ ListenAndServe (":" +:+ general "httpport") ] else [] in
          let tls :=
            if String.eqb (general "sslenabled") "true"
            then [ ListenAndServeTLS (":" +:+ general "sslport")
                     (general "sslcert") (general "sslkey") ]
            else [] in
          Serve (mkWorld f d [] (smtp_relay env)) routes (plain ++ tls)
      end
  end.

(** The listeners that have been started when [main] is where it ends up. *)
Definition listeners_of (s : Startup) : list Listener :=
  match s with
  | Serve _ _ ls => ls
  | _ => []
  end.

(** The handler the default [ServeMux] finds for a path it matches against
    its patterns: the one registered for exactly that path (the patterns of
    [main.go] name no method and no host, and have no wildcard and no
    trailing slash), [http.NotFound] when there is none. *)
Fixpoint Handler (mux : ServeMux) (path : string) : HandlerFunc :=
  match mux with
  | [] => fun w _ => (http_Error (Text "404 page not found") HTTP.StatusNotFound, w)
  | (pattern, h) :: mux' =>
      if String.eqb pattern path then h else Handler mux' path
  end.

(** [ServeMux.ServeHTTP]. The request target [*] is answered 400. A path
    that is in clean form goes to the handler found for it. A path that is
    not (a doubled slash, a [.] or [..] element, no leading slash) is
    answered by a redirect to its clean form and no handler runs, except
    for a CONNECT request, whose path is matched as it is. ([Path] is
    [r.URL.Path]; the mux reads the escaped form of the path, which makes
    a difference only for a request that percent-encodes a slash or a dot
    of its path.) *)
Definition ServeHTTP (mux : ServeMux) : HandlerFunc := fun w r =>
  let path := HTTP.Path (HTTP.Url r) in
  if String.eqb path "*" then (w_WriteHeader HTTP.StatusBadRequest, w)
  else if String.eqb (HTTP.cleanPath path) path then Handler mux path w r
  else if String.eqb (HTTP.Method r) "CONNECT" then Handler mux path w r
  else (mux_Redirect (HTTP.cleanPath path), w).

(** * Vocabulary of the properties *)

(** The configuration passed the checks of [parseConfig], which is the only
    way [main] gets to register a handler. *)
Definition validated (f : INI.File) : Prop := fst (parseConfig (inl f)) = true.

(** The configured secret, and what a request presents as its credential:
    the first value of the header the configuration names. *)
Definition secret (w : World) : string := INI.String_ (cfg w) "general" "secret".

Definition credential (w : World) (r : HTTP.Request) : string :=
  HTTP.Header_Get (HTTP.Header r) (INI.String_ (cfg w) "general" "authheader").

Definition unauthorized : Response :=
  http_Error (Text "unauthorized") HTTP.StatusUnauthorized.

(** The two routes behind [authWrapper]. *)
Definition gated (path : string) : Prop := path = "/puturl" \/ path = "/notify".

(** An authorized POST to [/puturl] whose body decodes to the given tag and
    url. *)
Definition save_request (w : World) (r : HTTP.Request) (t u : string) : Prop :=
  HTTP.Path (HTTP.Url r) = "/puturl"
  /\ HTTP.Method r = "POST"
  /\ credential w r = secret w
  /\ JSON.Decode (HTTP.Body r) "tag" "url" = inl (t, u).

(** What the decoder stores into a field of kind string without an error:
    a string, or [null]. *)
Definition storable (v : JSON.Value) : bool :=
  match v with
  | JSON.Str _ | JSON.Null => true
  | _ => false
  end.

(** A member the decoder takes: one that names neither field, or one that
    holds a string or [null]. *)
Definition accepted_member (fa fb : string) (m : string * JSON.Value) : bool :=
  if JSON.matches (fst m) fa || JSON.matches (fst m) fb then storable (snd m)
  else true.

(** The JSON values that unmarshal into the parameters of a handler
    without an error: [null], and an object all of whose members are
    taken. *)
Definition accepted (fa fb : string) (v : JSON.Value) : bool :=
  match v with
  | JSON.Null => true
  | JSON.Obj members => forallb (accepted_member fa fb) members
  | _ => false
  end.

(** An invariant of the scanner: a literal ([true], [false], [null]) being
    read has no white space left to read, so the space offered at the end
    of the input never completes one. *)
Definition literal_wf (st : JSON.Scan) : Prop :=
  match st with
  | JSON.Scanning (JSON.InLiteral rest _) _ => ~ In " "%char rest
  | _ => True
  end.

(** A request to [/geturl] that asks for the given tag. *)
Definition lookup_request (r : HTTP.Request) (t : string) : Prop :=
  HTTP.Path (HTTP.Url r) = "/geturl"
  /\ HTTP.Values_Get (HTTP.Query (HTTP.Url r)) "tag" = t.

(** The store is in working order and table [entries] holds [rows]. *)
Definition holds (w : World) (rows : list SQL.Entry) : Prop :=
  db w = SQL.mkDB SQL.ReadWrite (Some rows).

(** The rows of a table that carry the given tag. *)
Definition rows_of (t : string) (rows : list SQL.Entry) : list SQL.Entry :=
  List.filter (fun e => String.eqb (SQL.tag e) t) rows.

(** The state after the requests [rs] have been served one after the other,
    starting from [w]. *)
Definition serve_all (w : World) (rs : list HTTP.Request) : World :=
  fold_left (fun w r => snd (ServeHTTP routes w r)) rs w.

(** What holds of every state the server gets into when it starts on a
    database file it can read and write: the configuration is the validated
    one, and the table exists with no tag twice. *)
Definition sound (w : World) : Prop :=
  validated (cfg w)
  /\ exists rows, holds w rows /\ NoDup (map SQL.tag rows).

(** The keys [parseConfig] requires, with their sections. *)
Definition required : list (string * string) :=
  map (pair "smtp") smtpKeys ++ map (pair "general") generalKeys.

(** A key the file does not have. *)
Definition missing (f : INI.File) (section key : string) : Prop :=
  match f !! section with
  | Some sec => sec !! key = None
  | None => True
  end.

(** An authorized POST to [/notify] whose body decodes to the given level
    and body. *)
Definition notify_request (w : World) (r : HTTP.Request) (l b : string) : Prop :=
  HTTP.Path (HTTP.Url r) = "/notify"
  /\ HTTP.Method r = "POST"
  /\ credential w r = secret w
  /\ JSON.Decode (HTTP.Body r) "level" "body" = inl (l, b).

(** The message [notifyHandler] hands to [smtp.SendMail] for a level and a
    body, under the configuration in force. *)
Definition notification (w : World) (Level Body : string) : SMTP.Mail :=
  let smtp key := INI.String_ (cfg w) "smtp" key in
  SMTP.mkMail
    (smtp "server" +:+ ":" +:+ smtp "port")
    "" (smtp "username") (smtp "password") (smtp "server")
    (smtp "username")
    (recipients (smtp "sendto"))
    (Level +:+ CRLF +:+ CRLF +:+ Body).

(** How often a byte occurs in a string. *)
Fixpoint occurrences (s : string) (b : ascii) : nat :=
  match s with
  | EmptyString => 0
  | String c s' => (if Ascii.eqb c b then 1 else 0) + occurrences s' b
  end.

(** A value of the [general] section of the configuration in force. *)
Definition general (w : World) (key : string) : string :=
  INI.String_ (cfg w) "general" key.

(** The store cannot serve a statement on table [entries]: the file cannot
    be opened or the table was never created. *)
Definition broken (d : SQL.DB) : Prop :=
  SQL.access d = SQL.Unavailable \/ SQL.entries d = None.

(** * A sample deployment, for the concrete instances below *)

Module Sample.

Definition config : INI.File :=
  {[ "smtp" := {[ "server" := "mail.example.org"; "port" := "587";
                  "username" := "bot@example.org"; "password" := "hunter2";
                  "sendto" := "a@example.org, b@example.org" ]};
     "general" := {[ "database" := "jakk.db"; "secret" := "s3cret";
                     "authheader" := "x-jakk-auth"; "sslport" := "8443";
                     "httpport" := "8080"; "sslcert" := "cert.pem";
                     "sslkey" := "key.pem"; "httpenabled" := "true";
                     "sslenabled" := "false" ]} ]}.

(** A relay that accepts everything. *)
Definition accept : SMTP.Mail -> option string := fun _ => None.

(** A world with the given rows in the table. *)
Definition world (rows : list SQL.Entry) : World :=
  mkWorld config (SQL.mkDB SQL.ReadWrite (Some rows)) [] accept.

Definition quoted (s : string) : string :=
  String JSON.quote s +:+ String JSON.quote "".

(** The JSON text of an object with two string members (no escaping:
    for strings without quotes, backslashes or control characters). *)
Definition object2 (k1 v1 k2 v2 : string) : string :=
  "{" +:+ quoted k1 +:+ ":" +:+ quoted v1 +:+ ","
      +:+ quoted k2 +:+ ":" +:+ quoted v2 +:+ "}".

(** A request that carries the shared secret. *)
Definition request (method path body : string) : HTTP.Request :=
  HTTP.mkRequest method (HTTP.mkURL path ∅)
    {[ "X-Jakk-Auth" := [ "s3cret" ] ]} body "192.0.2.7:51234".

(** The same request without the credential header. *)
Definition anonymous (method path body : string) : HTTP.Request :=
  HTTP.mkRequest method (HTTP.mkURL path ∅) ∅ body "192.0.2.7:51234".

(** A lookup of [tag] through [/geturl]. *)
Definition lookup (tag : string) : HTTP.Request :=
  HTTP.mkRequest "GET" (HTTP.mkURL "/geturl" {[ "tag" := [ tag ] ]})
    ∅ "" "[2001:db8::1]:40000".

(** A request to [/ip] from the given remote address. *)
Definition from_addr (addr : string) : HTTP.Request :=
  HTTP.mkRequest "GET" (HTTP.mkURL "/ip" ∅) ∅ "" addr.

(** The sample configuration with other values for the two enable flags. *)
Definition config_flags (http ssl : string) : INI.File :=
  <[ "general" := {[ "database" := "jakk.db"; "secret" := "s3cret";
                     "authheader" := "x-jakk-auth"; "sslport" := "8443";
                     "httpport" := "8080"; "sslcert" := "cert.pem";
                     "sslkey" := "key.pem"; "httpenabled" := http;
                     "sslenabled" := ssl ]} ]> config.

(** A relay that refuses everything. *)
Definition refuse : SMTP.Mail -> option string :=
  fun _ => Some "dial tcp: connection refused".

End Sample.

(** * Properties *)

(** Case analysis on every test a scanner function makes. *)
Ltac scan_cases :=
  repeat match goal with
         | |- context [if ?b then _ else _] => destruct b
         | |- context [match ?x with _ => _ end] => destruct x
         end.

(** ** [strings.Split] and [strings.Join] *)

Lemma Split_nonempty (s : string) (sep : ascii) : Str.Split s sep <> [].
Proof.
  destruct s as [|c s]; simpl; [discriminate|].
  destruct (Ascii.eqb c sep); [discriminate|].
  destruct (Str.Split s sep); discriminate.
Qed.

Lemma Split_app (a b : string) (sep : ascii) :
  Str.Split (a +:+ String sep b) sep = Str.Split a sep ++ Str.Split b sep.
Proof.
  induction a as [|c a IH]; simpl.
  - now rewrite Ascii.eqb_refl.
  - destruct (Ascii.eqb c sep).
    + now rewrite IH.
    + rewrite IH. pose proof (Split_nonempty a sep) as Hne.
      destruct (Str.Split a sep) as [|f fs]; [contradiction|reflexivity].
Qed.

Lemma Split_without_sep (s : string) (sep : ascii) :
  Str.ContainsByte s sep = false -> Str.Split s sep = [ s ].
Proof.
  induction s as [|c s IH]; simpl; [reflexivity|].
  intros H. apply orb_false_iff in H as [Hc Hs].
  rewrite Hc, (IH Hs). reflexivity.
Qed.

Lemma Join_cons (e : string) (es : list string) (sep : string) :
  es <> [] -> Str.Join (e :: es) sep = e +:+ sep +:+ Str.Join es sep.
Proof. destruct es; [contradiction|reflexivity]. Qed.

Lemma Join_Split (s : string) (sep : ascii) :
  Str.Join (Str.Split s sep) (String sep "") = s.
Proof.
  induction s as [|c s IH]; simpl; [reflexivity|].
  destruct (Ascii.eqb_spec c sep) as [->|Hne].
  - rewrite Join_cons by apply Split_nonempty. now rewrite IH.
  - pose proof (Split_nonempty s sep) as Hnil.
    destruct (Str.Split s sep) as [|f fs]; [contradiction|].
    destruct fs as [|g gs]; simpl in *; now rewrite <- IH.
Qed.

(** ** [/ip] *)

(** C7. A request to [/ip] whose remote address is [host:port] (the port
    being what follows the last colon) is answered with [host], whatever
    [host] looks like: a dotted IPv4 address, or a bracketed IPv6 address
    with colons of its own. The state is left alone. *)
Theorem ip_returns_address_without_port :
  forall (w : World) (r : HTTP.Request) (host port : string),
    HTTP.Path (HTTP.Url r) = "/ip" ->
    HTTP.RemoteAddr r = host +:+ ":" +:+ port ->
    Str.ContainsByte port ":" = false ->
    ServeHTTP routes w r = (fmt_Fprint host, w).
Proof.
  intros w r host port Hpath Haddr Hport.
  unfold ServeHTTP. rewrite Hpath. simpl. unfold ipHandler.
  rewrite Haddr.
  change (host +:+ ":" +:+ port) with (host +:+ String ":" port).
  rewrite Split_app, (Split_without_sep _ _ Hport).
  rewrite length_app. simpl.
  replace (length (Str.Split host ":") + 1 - 1) with (length (Str.Split host ":")) by lia.
  rewrite take_app_length.
  now rewrite (Join_Split host ":").
Qed.

Lemma ip_returns_address_without_port_witness :
  ServeHTTP routes (Sample.world [])
    (HTTP.mkRequest "GET" (HTTP.mkURL "/ip" ∅) ∅ "" "[2001:db8::1]:40000")
  = (fmt_Fprint "[2001:db8::1]", Sample.world []).
Proof.
  apply (ip_returns_address_without_port _ _ "[2001:db8::1]" "40000");
    reflexivity.
Defined.

(** ** Configuration checks *)

Lemma checkConfig_true (f : INI.File) (section : string) (keys : list string) :
  fst (checkConfig f section keys) = true ->
  forall key, In key keys -> INI.String_ f section key <> "".
Proof.
  induction keys as [|k keys IH]; simpl; intros Hok key Hin; [contradiction|].
  destruct (String.eqb_spec (INI.String_ f section k) "") as [He|Hne].
  - discriminate Hok.
  - destruct Hin as [<-|Hin]; [exact Hne|now apply IH].
Qed.

Lemma parseConfig_true (f : INI.File) :
  validated f ->
  fst (checkConfig f "smtp" smtpKeys) = true
  /\ fst (checkConfig f "general" generalKeys) = true.
Proof.
  unfold validated, parseConfig.
  destruct (checkConfig f "smtp" smtpKeys) as [[|] o1]; [|discriminate].
  destruct (checkConfig f "general" generalKeys) as [[|] o2]; [|discriminate].
  auto.
Qed.

Lemma validated_required (f : INI.File) (section key : string) :
  validated f -> In (section, key) required -> INI.String_ f section key <> "".
Proof.
  intros Hv Hin. apply parseConfig_true in Hv as [Hs Hg].
  unfold required in Hin. apply in_app_or in Hin as [Hin|Hin];
    apply in_map_iff in Hin as (k & [= <- <-] & Hk).
  - now apply (checkConfig_true _ _ _ Hs).
  - now apply (checkConfig_true _ _ _ Hg).
Qed.

Lemma validated_secret (w : World) : validated (cfg w) -> secret w <> "".
Proof.
  intros Hv. apply (validated_required _ "general" "secret" Hv).
  unfold required. simpl. tauto.
Qed.

(** ** The shared-secret gate *)

Lemma authWrapper_reject (next : HandlerFunc) (w : World) (r : HTTP.Request) :
  credential w r = "" \/ credential w r <> secret w ->
  authWrapper next w r = (unauthorized, w).
Proof.
  intros H. unfold authWrapper. fold (credential w r). fold (secret w).
  destruct (String.eqb_spec (credential w r) "") as [He|Hne]; [reflexivity|].
  destruct (String.eqb_spec (credential w r) (secret w)) as [Hs|Hs]; simpl.
  - destruct H; contradiction.
  - reflexivity.
Qed.

Lemma authWrapper_pass (next : HandlerFunc) (w : World) (r : HTTP.Request) :
  credential w r <> "" -> credential w r = secret w ->
  authWrapper next w r = next w r.
Proof.
  intros Hne Hs. unfold authWrapper. fold (credential w r). fold (secret w).
  destruct (String.eqb_spec (credential w r) "") as [He|_]; [contradiction|].
  destruct (String.eqb_spec (credential w r) (secret w)) as [_|Hs']; simpl;
    [reflexivity|contradiction].
Qed.

Lemma authWrapper_inv (next : HandlerFunc) (w : World) (r : HTTP.Request) :
  authWrapper next w r = (unauthorized, w)
  \/ (credential w r <> "" /\ credential w r = secret w
      /\ authWrapper next w r = next w r).
Proof.
  destruct (String.eqb_spec (credential w r) "") as [He|Hne].
  - left. apply authWrapper_reject. now left.
  - destruct (String.eqb_spec (credential w r) (secret w)) as [Hs|Hs].
    + right. repeat split; try assumption. now apply authWrapper_pass.
    + left. apply authWrapper_reject. now right.
Qed.

Lemma Header_Get_absent (h : HTTP.Values) (key : string) :
  h !! Textproto.CanonicalMIMEHeaderKey key = None -> HTTP.Header_Get h key = "".
Proof. intros H. unfold HTTP.Header_Get, HTTP.Values_Get. now rewrite H. Qed.

(** C1. With a configuration that passed startup, a request whose
    credential header is absent, empty or different from the secret gets
    [unauthorized] (401) from [authWrapper next], with the state (store and
    outbox) as it was, whatever [next] is: [next] is not run. A request
    whose header value equals the secret is handed to [next]. The handlers
    registered for [/puturl] and [/notify] are such wrappers. *)
Theorem authWrapper_gates_the_handler :
  forall (next : HandlerFunc) (w : World) (r : HTTP.Request),
    validated (cfg w) ->
    (HTTP.Header r
       !! Textproto.CanonicalMIMEHeaderKey (INI.String_ (cfg w) "general" "authheader")
     = None ->
     authWrapper next w r = (unauthorized, w))
    /\ (credential w r = "" -> authWrapper next w r = (unauthorized, w))
    /\ (credential w r <> secret w -> authWrapper next w r = (unauthorized, w))
    /\ (credential w r = secret w -> authWrapper next w r = next w r)
    /\ Handler routes "/puturl" = authWrapper saveHandler
    /\ Handler routes "/notify" = authWrapper notifyHandler.
Proof.
  intros next w r Hv. pose proof (validated_secret w Hv) as Hsec.
  repeat split.
  - intros Habs. apply authWrapper_reject. left. now apply Header_Get_absent.
  - intros He. apply authWrapper_reject. now left.
  - intros Hne. apply authWrapper_reject. now right.
  - intros Heq. apply authWrapper_pass; congruence.
Qed.

Lemma authWrapper_gates_the_handler_witness :
  validated (cfg (Sample.world []))
  /\ authWrapper saveHandler (Sample.world [])
       (Sample.anonymous "POST" "/puturl" "{}")
     = (unauthorized, Sample.world [])
  /\ authWrapper saveHandler (Sample.world [])
       (Sample.request "POST" "/puturl" "{}")
     = saveHandler (Sample.world []) (Sample.request "POST" "/puturl" "{}").
Proof.
  assert (Hv : validated (cfg (Sample.world []))) by reflexivity.
  split; [exact Hv|]. split.
  - destruct (authWrapper_gates_the_handler saveHandler (Sample.world [])
                (Sample.anonymous "POST" "/puturl" "{}") Hv)
      as (Habsent & _).
    apply Habsent. reflexivity.
  - destruct (authWrapper_gates_the_handler saveHandler (Sample.world [])
                (Sample.request "POST" "/puturl" "{}") Hv)
      as (_ & _ & _ & Hpass & _).
    apply Hpass. reflexivity.
Defined.

(** ** Method checks of the gated handlers *)

Lemma ServeHTTP_gated (w : World) (r : HTTP.Request) :
  gated (HTTP.Path (HTTP.Url r)) ->
  exists next : HandlerFunc,
    (next = saveHandler \/ next = notifyHandler)
    /\ ServeHTTP routes w r = authWrapper next w r.
Proof.
  unfold ServeHTTP. intros [-> | ->].
  - exists saveHandler. split; [now left|reflexivity].
  - exists notifyHandler. split; [now right|reflexivity].
Qed.

Lemma saveHandler_wrong_method (w : World) (r : HTTP.Request) :
  HTTP.Method r <> "POST" ->
  saveHandler w r
  = (http_Error (Text "Invalid request method") HTTP.StatusMethodNotAllowed, w).
Proof.
  intros H. unfold saveHandler, HTTP.MethodPost.
  destruct (String.eqb_spec (HTTP.Method r) "POST"); [contradiction|reflexivity].
Qed.

Lemma notifyHandler_wrong_method (w : World) (r : HTTP.Request) :
  HTTP.Method r <> "POST" ->
  notifyHandler w r
  = (http_Error (Text "Invalid request method") HTTP.StatusMethodNotAllowed, w).
Proof.
  intros H. unfold notifyHandler, HTTP.MethodPost.
  destruct (String.eqb_spec (HTTP.Method r) "POST"); [contradiction|reflexivity].
Qed.

Lemma saveHandler_405 (w : World) (r : HTTP.Request) :
  StatusCode (fst (saveHandler w r)) = HTTP.StatusMethodNotAllowed ->
  HTTP.Method r <> "POST".
Proof.
  unfold saveHandler, HTTP.MethodPost.
  destruct (String.eqb_spec (HTTP.Method r) "POST") as [_|Hne]; simpl;
    [|intros _; exact Hne].
  destruct (JSON.Decode (HTTP.Body r) "tag" "url") as [[t u]|e]; simpl;
    [|discriminate].
  destruct (SQL.Exec_insert (db w) t u) as [d [e|]]; simpl; discriminate.
Qed.

Lemma notifyHandler_405 (w : World) (r : HTTP.Request) :
  StatusCode (fst (notifyHandler w r)) = HTTP.StatusMethodNotAllowed ->
  HTTP.Method r <> "POST".
Proof.
  unfold notifyHandler, HTTP.MethodPost.
  destruct (String.eqb_spec (HTTP.Method r) "POST") as [_|Hne]; simpl;
    [|intros _; exact Hne].
  destruct (JSON.Decode (HTTP.Body r) "level" "body") as [[l b]|e]; simpl;
    [|discriminate].
  destruct (String.eqb l "" || String.eqb b ""); simpl; [discriminate|].
  match goal with |- context [relay w ?m] => destruct (relay w m) end;
    simpl; discriminate.
Qed.

(** C10. On [/puturl] and [/notify] the credential is checked before the
    method: without the right credential the answer is 401 whatever the
    method is; a method other than POST gets 405 when the credential is
    right, and 405 is given to no other request. *)
Theorem credential_checked_before_method :
  forall (w : World) (r : HTTP.Request),
    validated (cfg w) ->
    gated (HTTP.Path (HTTP.Url r)) ->
    (credential w r <> secret w -> ServeHTTP routes w r = (unauthorized, w))
    /\ (credential w r = secret w -> HTTP.Method r <> "POST" ->
        ServeHTTP routes w r
        = (http_Error (Text "Invalid request method")
             HTTP.StatusMethodNotAllowed, w))
    /\ (StatusCode (fst (ServeHTTP routes w r)) = HTTP.StatusMethodNotAllowed ->
        credential w r = secret w /\ HTTP.Method r <> "POST").
Proof.
  intros w r Hv Hg. pose proof (validated_secret w Hv) as Hsec.
  destruct (ServeHTTP_gated w r Hg) as (next & Hnext & ->).
  split; [|split].
  - intros Hne. apply authWrapper_reject. now right.
  - intros Heq Hm. rewrite authWrapper_pass by congruence.
    destruct Hnext as [-> | ->].
    + now apply saveHandler_wrong_method.
    + now apply notifyHandler_wrong_method.
  - intros Hst.
    destruct (authWrapper_inv next w r) as [Hrej | (Hne & Heq & Hrun)].
    + rewrite Hrej in Hst. discriminate Hst.
    + split; [exact Heq|]. rewrite Hrun in Hst.
      destruct Hnext as [-> | ->].
      * now apply (saveHandler_405 w).
      * now apply (notifyHandler_405 w).
Qed.

Lemma credential_checked_before_method_witness :
  ServeHTTP routes (Sample.world []) (Sample.anonymous "GET" "/notify" "")
  = (unauthorized, Sample.world [])
  /\ ServeHTTP routes (Sample.world []) (Sample.request "GET" "/notify" "")
     = (http_Error (Text "Invalid request method") HTTP.StatusMethodNotAllowed,
        Sample.world []).
Proof.
  assert (Hv : validated (cfg (Sample.world []))) by reflexivity.
  split.
  - destruct (credential_checked_before_method (Sample.world [])
                (Sample.anonymous "GET" "/notify" "") Hv)
      as (Hreject & _); [right; reflexivity|].
    apply Hreject. discriminate.
  - destruct (credential_checked_before_method (Sample.world [])
                (Sample.request "GET" "/notify" "") Hv)
      as (_ & Hmethod & _); [right; reflexivity|].
    apply Hmethod; [reflexivity|discriminate].
Defined.

(** ** The table of entries *)

Lemma has_tag_false_find (t : string) (rows : list SQL.Entry) :
  SQL.has_tag t rows = false ->
  find (fun e => String.eqb (SQL.tag e) t) rows = None.
Proof.
  unfold SQL.has_tag. induction rows as [|e rows IH]; simpl; [reflexivity|].
  intros H. apply orb_false_iff in H as [He Hr]. now rewrite He, IH.
Qed.

Lemma has_tag_false_rows_of (t : string) (rows : list SQL.Entry) :
  SQL.has_tag t rows = false -> rows_of t rows = [].
Proof.
  unfold SQL.has_tag, rows_of. induction rows as [|e rows IH]; simpl; [reflexivity|].
  intros H. apply orb_false_iff in H as [He Hr]. now rewrite He, IH.
Qed.

Lemma has_tag_app (t : string) (r1 r2 : list SQL.Entry) :
  SQL.has_tag t (r1 ++ r2) = SQL.has_tag t r1 || SQL.has_tag t r2.
Proof. unfold SQL.has_tag. apply existsb_app. Qed.

Lemma find_tag_app (t : string) (r1 r2 : list SQL.Entry) :
  find (fun e => String.eqb (SQL.tag e) t) (r1 ++ r2)
  = match find (fun e => String.eqb (SQL.tag e) t) r1 with
    | Some e => Some e
    | None => find (fun e => String.eqb (SQL.tag e) t) r2
    end.
Proof.
  induction r1 as [|e r1 IH]; simpl; [reflexivity|].
  destruct (String.eqb (SQL.tag e) t); [reflexivity|exact IH].
Qed.

Lemma Exec_insert_fresh (rows : list SQL.Entry) (t u : string) :
  SQL.has_tag t rows = false ->
  SQL.Exec_insert (SQL.mkDB SQL.ReadWrite (Some rows)) t u
  = (SQL.mkDB SQL.ReadWrite (Some (rows ++ [ SQL.mkEntry (SQL.next_id rows) t u ])), None).
Proof. intros H. unfold SQL.Exec_insert. simpl. now rewrite H. Qed.

Lemma Exec_insert_taken (rows : list SQL.Entry) (t u : string) :
  SQL.has_tag t rows = true ->
  SQL.Exec_insert (SQL.mkDB SQL.ReadWrite (Some rows)) t u
  = (SQL.mkDB SQL.ReadWrite (Some rows), Some SQL.ErrConstraintUnique).
Proof. intros H. unfold SQL.Exec_insert. simpl. now rewrite H. Qed.

(** A failed statement leaves the database as it was. *)
Lemma Exec_insert_error (d d' : SQL.DB) (t u : string) (e : SQL.Error) :
  SQL.Exec_insert d t u = (d', Some e) -> d' = d.
Proof.
  unfold SQL.Exec_insert.
  destruct (SQL.access d), (SQL.entries d) as [rows|];
    try (now intros [= <- _]).
  destruct (SQL.has_tag t rows); [now intros [= <- _]|discriminate].
Qed.

(** ** [/puturl] *)

(** What an authorized POST to [/puturl] comes to: the decoded fields go to
    the INSERT statement as they are. *)
Lemma ServeHTTP_save (w : World) (r : HTTP.Request) (t u : string) :
  validated (cfg w) ->
  save_request w r t u ->
  ServeHTTP routes w r
  = match SQL.Exec_insert (db w) t u with
    | (_, Some err) =>
        (http_Error (TextErr "Failed to save data: " (SqlError err))
           HTTP.StatusInternalServerError, w)
    | (db', None) => (fmt_Fprint "success", set_db w db')
    end.
Proof.
  intros Hv (Hpath & Hm & Hcred & Hdec).
  pose proof (validated_secret w Hv) as Hsec.
  unfold ServeHTTP. rewrite Hpath. simpl.
  rewrite authWrapper_pass by congruence.
  unfold saveHandler. rewrite Hm, Hdec. reflexivity.
Qed.

Lemma ServeHTTP_save_fresh (w : World) (rows : list SQL.Entry)
    (r : HTTP.Request) (t u : string) :
  validated (cfg w) ->
  holds w rows ->
  SQL.has_tag t rows = false ->
  save_request w r t u ->
  ServeHTTP routes w r
  = (fmt_Fprint "success",
     set_db w (SQL.mkDB SQL.ReadWrite
                 (Some (rows ++ [ SQL.mkEntry (SQL.next_id rows) t u ])))).
Proof.
  intros Hv Hrows Hfresh Hreq. rewrite (ServeHTTP_save w r t u Hv Hreq).
  unfold holds in Hrows. rewrite Hrows, (Exec_insert_fresh rows t u Hfresh).
  reflexivity.
Qed.

Lemma ServeHTTP_save_taken (w : World) (rows : list SQL.Entry)
    (r : HTTP.Request) (t u : string) :
  validated (cfg w) ->
  holds w rows ->
  SQL.has_tag t rows = true ->
  save_request w r t u ->
  ServeHTTP routes w r
  = (http_Error (TextErr "Failed to save data: " (SqlError SQL.ErrConstraintUnique))
       HTTP.StatusInternalServerError, w).
Proof.
  intros Hv Hrows Htaken Hreq. rewrite (ServeHTTP_save w r t u Hv Hreq).
  unfold holds in Hrows. rewrite Hrows, (Exec_insert_taken rows t u Htaken).
  reflexivity.
Qed.

Lemma has_tag_last (t u : string) (i : Z) (rows : list SQL.Entry) :
  SQL.has_tag t (rows ++ [ SQL.mkEntry i t u ]) = true.
Proof.
  rewrite has_tag_app. unfold SQL.has_tag at 2. simpl.
  rewrite String.eqb_refl. now rewrite orb_true_r.
Qed.

(** C2. In a working store with no row for tag [t], an authorized save of
    [(t, u1)] succeeds and adds one row; a following save of [(t, u2)] is
    answered 500 with the UNIQUE-constraint error and leaves the state as
    the first save left it: the one row for [t] is the one with [u1]. *)
Theorem second_save_of_a_tag_is_rejected :
  forall (w : World) (rows : list SQL.Entry) (r1 r2 : HTTP.Request)
         (t u1 u2 : string),
    validated (cfg w) ->
    holds w rows ->
    SQL.has_tag t rows = false ->
    save_request w r1 t u1 ->
    save_request w r2 t u2 ->
    let row := SQL.mkEntry (SQL.next_id rows) t u1 in
    let w1 := set_db w (SQL.mkDB SQL.ReadWrite (Some (rows ++ [ row ]))) in
    ServeHTTP routes w r1 = (fmt_Fprint "success", w1)
    /\ ServeHTTP routes w1 r2
       = (http_Error
            (TextErr "Failed to save data: " (SqlError SQL.ErrConstraintUnique))
            HTTP.StatusInternalServerError, w1)
    /\ rows_of t (rows ++ [ row ]) = [ row ]
    /\ SQL.QueryRow_url (db w1) t = inl u1.
Proof.
  intros w rows r1 r2 t u1 u2 Hv Hrows Hfresh H1 H2 row w1.
  split; [|split; [|split]].
  - now apply ServeHTTP_save_fresh.
  - apply (ServeHTTP_save_taken w1 (rows ++ [ row ]) r2 t u2); try assumption.
    + reflexivity.
    + apply has_tag_last.
  - unfold rows_of. rewrite List.filter_app.
    fold (rows_of t rows). rewrite (has_tag_false_rows_of t rows Hfresh).
    simpl. now rewrite String.eqb_refl.
  - unfold SQL.QueryRow_url. simpl.
    rewrite find_tag_app, (has_tag_false_find t rows Hfresh). simpl.
    now rewrite String.eqb_refl.
Qed.

Lemma second_save_of_a_tag_is_rejected_witness :
  let w := Sample.world [] in
  let w1 := set_db w (SQL.mkDB SQL.ReadWrite (Some [ SQL.mkEntry 1 "go" "https://go.dev" ])) in
  ServeHTTP routes w
    (Sample.request "POST" "/puturl" (Sample.object2 "tag" "go" "url" "https://go.dev"))
  = (fmt_Fprint "success", w1)
  /\ ServeHTTP routes w1
       (Sample.request "POST" "/puturl"
          (Sample.object2 "tag" "go" "url" "https://example.org"))
     = (http_Error
          (TextErr "Failed to save data: " (SqlError SQL.ErrConstraintUnique))
          HTTP.StatusInternalServerError, w1).
Proof.
  intros w w1.
  assert (Hv : validated (cfg w)) by reflexivity.
  assert (Hrows : holds w []) by reflexivity.
  assert (Hfresh : SQL.has_tag "go" [] = false) by reflexivity.
  assert (H1 : save_request w
                 (Sample.request "POST" "/puturl"
                    (Sample.object2 "tag" "go" "url" "https://go.dev"))
                 "go" "https://go.dev")
    by (repeat split; reflexivity).
  assert (H2 : save_request w
                 (Sample.request "POST" "/puturl"
                    (Sample.object2 "tag" "go" "url" "https://example.org"))
                 "go" "https://example.org")
    by (repeat split; reflexivity).
  destruct (second_save_of_a_tag_is_rejected w [] _ _ _ _ _
              Hv Hrows Hfresh H1 H2)
    as (Hfirst & Hsecond & _).
  split; [exact Hfirst|exact Hsecond].
Defined.

(** C5. An authorized POST to [/puturl] whose body decodes to [(t, u)] is
    answered by what the INSERT of exactly [(t, u)] gives, for every [t] and
    [u], the empty strings included: no check stands between the decoder
    and the statement. When the INSERT succeeds the answer is [success] and
    the database of the state afterwards is the one the INSERT left, the
    rest of the state being as before. In a working store without a row
    for [t] the row [(t, u)] is added at the end of the table, nothing else
    in it changes, and a lookup of [t] in the state afterwards finds
    [u]. *)
Theorem save_forwards_fields_unchecked :
  forall (w : World) (r : HTTP.Request) (t u : string),
    validated (cfg w) ->
    save_request w r t u ->
    ServeHTTP routes w r
    = match SQL.Exec_insert (db w) t u with
      | (_, Some err) =>
          (http_Error (TextErr "Failed to save data: " (SqlError err))
             HTTP.StatusInternalServerError, w)
      | (db', None) => (fmt_Fprint "success", set_db w db')
      end
    /\ (forall rows,
          holds w rows ->
          SQL.has_tag t rows = false ->
          ServeHTTP routes w r
          = (fmt_Fprint "success",
             set_db w (SQL.mkDB SQL.ReadWrite
                         (Some (rows ++ [ SQL.mkEntry (SQL.next_id rows) t u ])))))
    /\ (forall d,
          SQL.Exec_insert (db w) t u = (d, None) ->
          fst (ServeHTTP routes w r) = fmt_Fprint "success"
          /\ db (snd (ServeHTTP routes w r)) = d
          /\ cfg (snd (ServeHTTP routes w r)) = cfg w
          /\ outbox (snd (ServeHTTP routes w r)) = outbox w
          /\ relay (snd (ServeHTTP routes w r)) = relay w)
    /\ (forall rows,
          holds w rows ->
          SQL.has_tag t rows = false ->
          db (snd (ServeHTTP routes w r))
          = SQL.mkDB SQL.ReadWrite
              (Some (rows ++ [ SQL.mkEntry (SQL.next_id rows) t u ]))
          /\ SQL.entries (db (snd (ServeHTTP routes w r)))
             = Some (rows ++ [ SQL.mkEntry (SQL.next_id rows) t u ])
          /\ SQL.QueryRow_url (db (snd (ServeHTTP routes w r))) t = inl u).
Proof.
  intros w r t u Hv Hreq.
  pose proof (ServeHTTP_save w r t u Hv Hreq) as Hsave.
  split; [exact Hsave|]. split; [|split].
  - intros rows Hrows Hfresh. now apply ServeHTTP_save_fresh.
  - intros d Hins. rewrite Hsave, Hins. simpl. tauto.
  - intros rows Hrows Hfresh.
    rewrite (ServeHTTP_save_fresh w rows r t u Hv Hrows Hfresh Hreq).
    split; [reflexivity|]. split; [reflexivity|].
    unfold SQL.QueryRow_url. simpl.
    rewrite find_tag_app, (has_tag_false_find t rows Hfresh). simpl.
    now rewrite String.eqb_refl.
Qed.

Lemma save_forwards_fields_unchecked_witness :
  let w := Sample.world [] in
  let r := Sample.request "POST" "/puturl" (Sample.object2 "tag" "" "url" "") in
  ServeHTTP routes w r
  = (fmt_Fprint "success",
     set_db w (SQL.mkDB SQL.ReadWrite (Some [ SQL.mkEntry 1 "" "" ])))
  /\ SQL.entries (db (snd (ServeHTTP routes w r))) = Some [ SQL.mkEntry 1 "" "" ]
  /\ SQL.QueryRow_url (db (snd (ServeHTTP routes w r))) "" = inl "".
Proof.
  intros w r.
  assert (Hv : validated (cfg w)) by reflexivity.
  assert (Hreq : save_request w r "" "") by (repeat split; reflexivity).
  destruct (save_forwards_fields_unchecked w r "" "" Hv Hreq)
    as (_ & Hrow & _ & Hstate).
  destruct (Hstate [] eq_refl eq_refl) as (_ & Hentries & Hlookup).
  split; [apply (Hrow []); reflexivity|].
  split; [exact Hentries|exact Hlookup].
Defined.

(** ** Fields the body does not have *)

Lemma object_without_first (fa fb : string) (members : list (string * JSON.Value))
    (a b : string) (saved : option JSON.Error) :
  (forall k v, In (k, v) members -> JSON.matches k fa = false) ->
  fst (fst (JSON.object fa fb members a b saved)) = a.
Proof.
  revert a b saved.
  induction members as [|[k v] members IH]; intros a b saved Hno; simpl;
    [reflexivity|].
  rewrite (Hno k v) by now left.
  assert (Hrest : forall k' v', In (k', v') members -> JSON.matches k' fa = false)
    by (intros k' v' Hin; apply (Hno k' v'); now right).
  destruct (JSON.matches k fb).
  - destruct (JSON.store b v) as [b' e]. now apply IH.
  - now apply IH.
Qed.

Lemma object_without_second (fa fb : string) (members : list (string * JSON.Value))
    (a b : string) (saved : option JSON.Error) :
  (forall k v, In (k, v) members -> JSON.matches k fb = false) ->
  snd (fst (JSON.object fa fb members a b saved)) = b.
Proof.
  revert a b saved.
  induction members as [|[k v] members IH]; intros a b saved Hno; simpl;
    [reflexivity|].
  assert (Hrest : forall k' v', In (k', v') members -> JSON.matches k' fb = false)
    by (intros k' v' Hin; apply (Hno k' v'); now right).
  destruct (JSON.matches k fa).
  - destruct (JSON.store a v) as [a' e]. now apply IH.
  - rewrite (Hno k v) by now left. now apply IH.
Qed.

(** ** What the decoder accepts *)

Lemma store_error (cur : string) (v : JSON.Value) :
  snd (JSON.store cur v) = None <-> storable v = true.
Proof. destruct v; simpl; split; intros H; try reflexivity; discriminate. Qed.

Lemma saveError_None (saved new : option JSON.Error) :
  JSON.saveError saved new = None <-> saved = None /\ new = None.
Proof.
  destruct saved; simpl; split; try tauto; try discriminate.
Qed.

Lemma object_error (fa fb : string) (members : list (string * JSON.Value))
    (a b : string) (saved : option JSON.Error) :
  snd (JSON.object fa fb members a b saved) = None
  <-> saved = None /\ forallb (accepted_member fa fb) members = true.
Proof.
  revert a b saved.
  induction members as [|[k v] members IH]; intros a b saved; simpl.
  - tauto.
  - unfold accepted_member at 1. simpl.
    rewrite andb_true_iff.
    destruct (JSON.matches k fa); simpl.
    + pose proof (store_error a v) as Hs.
      destruct (JSON.store a v) as [a' e]. simpl in Hs.
      rewrite IH, saveError_None. tauto.
    + destruct (JSON.matches k fb); simpl.
      * pose proof (store_error b v) as Hs.
        destruct (JSON.store b v) as [b' e]. simpl in Hs.
        rewrite IH, saveError_None. tauto.
      * rewrite IH. tauto.
Qed.

Lemma unmarshal_accepted (fa fb : string) (v : JSON.Value) :
  accepted fa fb v = true ->
  exists t u, JSON.unmarshal fa fb v = inl (t, u).
Proof.
  destruct v as [| | | |elems|members]; simpl; try discriminate.
  - intros _. now exists "", "".
  - intros Hacc.
    pose proof (proj2 (object_error fa fb members "" "" None) (conj eq_refl Hacc))
      as Hobj.
    destruct (JSON.object fa fb members "" "" None) as [[a b] [e|]];
      [discriminate|].
    now exists a, b.
Qed.

Lemma unmarshal_not_accepted (fa fb : string) (v : JSON.Value) :
  accepted fa fb v = false ->
  exists e, JSON.unmarshal fa fb v = inr e.
Proof.
  destruct v as [| | | |elems|members]; simpl; try discriminate;
    try (intros _; now eexists).
  intros Hacc.
  pose proof (object_error fa fb members "" "" None) as Hobj.
  destruct (JSON.object fa fb members "" "" None) as [[a b] [e|]];
    [now exists e|].
  simpl in Hobj. destruct (proj1 Hobj eq_refl) as [_ H]. congruence.
Qed.

Lemma scan_Done (v : JSON.Value) (s : string) :
  JSON.scan (JSON.Done v) s = JSON.Done v.
Proof. now destruct s. Qed.

Lemma scan_Failed (s : string) : JSON.scan JSON.Failed s = JSON.Failed.
Proof. now destruct s. Qed.

Lemma scan_app (st : JSON.Scan) (s rest : string) :
  JSON.scan st (s +:+ rest) = JSON.scan (JSON.scan st s) rest.
Proof.
  revert st. induction s as [|c s IH]; intros st; simpl.
  - now destruct st.
  - destruct st as [l stack|v|]; [apply IH| |].
    + now rewrite scan_Done.
    + now rewrite scan_Failed.
Qed.

Lemma emit_literal_wf (v : JSON.Value) (stack : list JSON.Frame) :
  literal_wf (JSON.emit v stack).
Proof. unfold JSON.emit. scan_cases; exact I. Qed.

Lemma endValue_literal_wf (c : ascii) (stack : list JSON.Frame) :
  literal_wf (JSON.endValue c stack).
Proof.
  unfold JSON.endValue. scan_cases; try exact I; apply emit_literal_wf.
Qed.

Lemma endNumber_literal_wf (lit : list ascii) (c : ascii) (stack : list JSON.Frame) :
  literal_wf (JSON.endNumber lit c stack).
Proof.
  unfold JSON.endNumber.
  destruct (JSON.emit _ stack) as [l st|v|] eqn:He; try exact I.
  destruct l; try (pose proof (emit_literal_wf
      (JSON.Num (string_of_list_ascii (rev lit))) stack) as H; rewrite He in H; exact H).
  apply endValue_literal_wf.
Qed.

Lemma beginValue_literal_wf (c : ascii) (stack : list JSON.Frame) :
  literal_wf (JSON.beginValue c stack).
Proof.
  unfold JSON.beginValue, JSON.push.
  scan_cases; try exact I; simpl; intros H;
    repeat (destruct H as [H|H]; [discriminate H|]); exact H.
Qed.

Lemma step_literal_wf (l : JSON.Lex) (stack : list JSON.Frame) (c : ascii) :
  literal_wf (JSON.Scanning l stack) -> literal_wf (JSON.step l stack c).
Proof.
  intros Hwf. destruct l; simpl.
  - apply beginValue_literal_wf.
  - scan_cases; try exact I;
      first [apply emit_literal_wf | apply beginValue_literal_wf].
  - unfold JSON.beginString. scan_cases; try exact I; apply emit_literal_wf.
  - unfold JSON.beginString. scan_cases; exact I.
  - scan_cases; try exact I; apply emit_literal_wf.
  - scan_cases; exact I.
  - scan_cases; exact I.
  - unfold JSON.stepNumber. scan_cases; try exact I; apply endNumber_literal_wf.
  - destruct rest as [|x rest']; [exact I|].
    destruct (Ascii.eqb c x); [|exact I].
    destruct rest' as [|y rest'']; [apply emit_literal_wf|].
    simpl in *. tauto.
  - apply endValue_literal_wf.
Qed.

Lemma scan_literal_wf (s : string) (st : JSON.Scan) :
  literal_wf st -> literal_wf (JSON.scan st s).
Proof.
  revert st. induction s as [|c s IH]; intros st Hwf.
  - now destruct st.
  - destruct st as [l stack|v|]; simpl; [|exact I|exact I].
    apply IH. now apply step_literal_wf.
Qed.

(** Only a number is completed by the space the scanner is offered at the
    end of the input. *)
Lemma step_space_Done (l : JSON.Lex) (stack : list JSON.Frame) (v : JSON.Value) :
  literal_wf (JSON.Scanning l stack) ->
  JSON.step l stack " " = JSON.Done v ->
  exists lit, v = JSON.Num lit.
Proof.
  intros Hwf. destruct l; try (simpl; discriminate).
  - simpl. unfold JSON.stepNumber, JSON.endNumber, JSON.emit. simpl.
    destruct st; simpl; try discriminate;
      (destruct stack as [|[] stack]; simpl; try discriminate;
       intros [= <-]; now eexists).
  - cbn [JSON.step]. destruct rest as [|x rest']; [discriminate|].
    destruct (Ascii.eqb_spec " " x) as [<-|]; [|discriminate].
    exfalso. apply Hwf. now left.
Qed.

Lemma readValue_scan (body : string) (v : JSON.Value) :
  JSON.readValue body = inl v ->
  (forall lit, v <> JSON.Num lit) ->
  JSON.scan (JSON.Scanning JSON.BeginValue []) body = JSON.Done v.
Proof.
  unfold JSON.readValue. intros Hread Hnum.
  pose proof (scan_literal_wf body (JSON.Scanning JSON.BeginValue []) I) as Hwf.
  destruct (JSON.scan _ body) as [l stack|v'|]; [|congruence|discriminate].
  destruct (JSON.step l stack " ") as [l' stack'|v'|] eqn:Hstep; try discriminate.
  destruct (step_space_Done l stack v' Hwf Hstep) as (lit & ->).
  injection Hread as <-. now destruct (Hnum lit).
Qed.

Lemma accepted_not_Num (fa fb : string) (v : JSON.Value) :
  accepted fa fb v = true -> forall lit, v <> JSON.Num lit.
Proof. intros H lit ->. discriminate H. Qed.

(** Whatever follows the first value is not read. *)
Lemma Decode_first_value (body rest : string) (fa fb : string) (v : JSON.Value) :
  JSON.readValue body = inl v ->
  accepted fa fb v = true ->
  JSON.Decode (body +:+ rest) fa fb = JSON.Decode body fa fb.
Proof.
  intros Hread Hacc.
  pose proof (readValue_scan body v Hread (accepted_not_Num fa fb v Hacc)) as Hscan.
  unfold JSON.Decode. rewrite Hread.
  unfold JSON.readValue. now rewrite scan_app, Hscan, scan_Done.
Qed.

(** A body that is JSON is scanned to its value. *)
Lemma checkValid_scan (s : string) (l : JSON.Lex) (stack : list JSON.Frame)
    (e : JSON.Error) :
  JSON.checkValid l stack s = true ->
  exists v,
    match JSON.scan (JSON.Scanning l stack) s with
    | JSON.Done v => inl v
    | JSON.Failed => inr JSON.SyntaxError
    | JSON.Scanning l' stack' =>
        match JSON.step l' stack' " " with
        | JSON.Done v => inl v
        | _ => inr e
        end
    end = inl v.
Proof.
  revert l stack. induction s as [|c s IH]; intros l stack; simpl.
  - destruct (JSON.step l stack " ") as [| v |]; try discriminate.
    intros _. now exists v.
  - destruct (JSON.step l stack c) as [l' stack'| v |]; try discriminate.
    + apply IH.
    + intros _. exists v. now rewrite scan_Done.
Qed.

Lemma Valid_examples :
  map JSON.Valid
    [ "{}"; " {} "; "[1]"; "[1, 2.5e3 ,null]"; "12"; "12 "; "null"; "true ";
      Sample.object2 "tag" "go" "url" "https://go.dev";
      Sample.quoted "go" ]
  = [ true; true; true; true; true; true; true; true; true; true ]
  /\ map JSON.Valid
       [ ""; " "; "12x"; "-"; "nul"; "nullx"; "{} {}"; "[1,]"; "{"; "tag=go";
         "{} and more"; "{}}} this is not JSON"; "null!!!" ]
     = [ false; false; false; false; false; false; false; false; false; false;
         false; false; false ].
Proof. split; reflexivity. Qed.

Lemma Valid_readValue (body : string) :
  JSON.Valid body = true -> exists v, JSON.readValue body = inl v.
Proof. apply checkValid_scan. Qed.

Lemma readValue_error_not_Valid (body : string) (e : JSON.Error) :
  JSON.readValue body = inr e -> JSON.Valid body = false.
Proof.
  intros He. destruct (JSON.Valid body) eqn:Hv; [|reflexivity].
  destruct (Valid_readValue body Hv) as (v & Hread). congruence.
Qed.

(** ** The answers of [/puturl] to a body *)

Lemma ServeHTTP_puturl (w : World) (r : HTTP.Request) :
  validated (cfg w) ->
  HTTP.Path (HTTP.Url r) = "/puturl" ->
  HTTP.Method r = "POST" ->
  credential w r = secret w ->
  ServeHTTP routes w r
  = match JSON.Decode (HTTP.Body r) "tag" "url" with
    | inr err =>
        (http_Error (TextErr "Invalid request body: " (JsonError err))
           HTTP.StatusBadRequest, w)
    | inl (t, u) =>
        match SQL.Exec_insert (db w) t u with
        | (_, Some err) =>
            (http_Error (TextErr "Failed to save data: " (SqlError err))
               HTTP.StatusInternalServerError, w)
        | (db', None) => (fmt_Fprint "success", set_db w db')
        end
    end.
Proof.
  intros Hv Hpath Hm Hcred.
  pose proof (validated_secret w Hv) as Hsec.
  unfold ServeHTTP. rewrite Hpath. simpl.
  rewrite authWrapper_pass by congruence.
  unfold saveHandler. rewrite Hm. reflexivity.
Qed.

Lemma Decode_error_cases (body : string) (fa fb : string) :
  (exists e, JSON.Decode body fa fb = inr e)
  <-> (exists e, JSON.readValue body = inr e)
      \/ (exists v, JSON.readValue body = inl v /\ accepted fa fb v = false).
Proof.
  unfold JSON.Decode. destruct (JSON.readValue body) as [v|e].
  - destruct (accepted fa fb v) eqn:Hacc.
    + destruct (unmarshal_accepted fa fb v Hacc) as (t & u & ->).
      split.
      * intros (e & He). discriminate He.
      * intros [(e & He) | (v' & Hv' & Hno)]; [discriminate He|].
        injection Hv' as <-. congruence.
    + destruct (unmarshal_not_accepted fa fb v Hacc) as (e & ->).
      split; [|intros _; now exists e].
      intros _. right. now exists v.
  - split; [|intros _; now exists e].
    intros _. left. now exists e.
Qed.

(** C4, as the code has it. An authorized POST to [/puturl] is answered 400
    exactly when the decoder reports an error, and then the state is
    unchanged. The decoder reports an error exactly when no first JSON
    value can be read from the body, or when that value is not accepted:
    it is neither [null] nor an object whose members named [tag] or [url]
    hold a string or [null]. A body from which no first value can be read
    is not JSON. When the first value is accepted, the request is answered
    by what the INSERT of the decoded fields gives, a field the object has
    no member for being the empty string, and whatever follows that value
    in the body changes nothing. *)
Theorem puturl_bad_request_iff_decode_error :
  forall (w : World) (r : HTTP.Request),
    validated (cfg w) ->
    HTTP.Path (HTTP.Url r) = "/puturl" ->
    HTTP.Method r = "POST" ->
    credential w r = secret w ->
    (forall e, JSON.readValue (HTTP.Body r) = inr e ->
       ServeHTTP routes w r
       = (http_Error (TextErr "Invalid request body: " (JsonError e))
            HTTP.StatusBadRequest, w))
    /\ (forall e, JSON.Decode (HTTP.Body r) "tag" "url" = inr e ->
          ServeHTTP routes w r
          = (http_Error (TextErr "Invalid request body: " (JsonError e))
               HTTP.StatusBadRequest, w))
    /\ (forall t u, JSON.Decode (HTTP.Body r) "tag" "url" = inl (t, u) ->
          StatusCode (fst (ServeHTTP routes w r)) <> HTTP.StatusBadRequest)
    /\ (forall members t u,
          JSON.readValue (HTTP.Body r) = inl (JSON.Obj members) ->
          JSON.Decode (HTTP.Body r) "tag" "url" = inl (t, u) ->
          ((forall k v, In (k, v) members -> JSON.matches k "tag" = false) ->
           t = "")
          /\ ((forall k v, In (k, v) members -> JSON.matches k "url" = false) ->
              u = ""))
    /\ (StatusCode (fst (ServeHTTP routes w r)) = HTTP.StatusBadRequest
        <-> (exists e, JSON.readValue (HTTP.Body r) = inr e)
            \/ (exists v, JSON.readValue (HTTP.Body r) = inl v
                          /\ accepted "tag" "url" v = false))
    /\ (StatusCode (fst (ServeHTTP routes w r)) = HTTP.StatusBadRequest ->
        snd (ServeHTTP routes w r) = w)
    /\ (forall e, JSON.readValue (HTTP.Body r) = inr e ->
          JSON.Valid (HTTP.Body r) = false)
    /\ (forall v,
          JSON.readValue (HTTP.Body r) = inl v ->
          accepted "tag" "url" v = true ->
          exists t u,
            JSON.Decode (HTTP.Body r) "tag" "url" = inl (t, u)
            /\ ServeHTTP routes w r
               = match SQL.Exec_insert (db w) t u with
                 | (_, Some err) =>
                     (http_Error (TextErr "Failed to save data: " (SqlError err))
                        HTTP.StatusInternalServerError, w)
                 | (db', None) => (fmt_Fprint "success", set_db w db')
                 end
            /\ (forall members,
                  v = JSON.Obj members ->
                  ((forall k x, In (k, x) members -> JSON.matches k "tag" = false) ->
                   t = "")
                  /\ ((forall k x, In (k, x) members -> JSON.matches k "url" = false) ->
                      u = ""))
            /\ (v = JSON.Null -> t = "" /\ u = "")
            /\ (forall rest r',
                  HTTP.Path (HTTP.Url r') = "/puturl" ->
                  HTTP.Method r' = "POST" ->
                  credential w r' = secret w ->
                  HTTP.Body r' = HTTP.Body r +:+ rest ->
                  ServeHTTP routes w r' = ServeHTTP routes w r)).
Proof.
  intros w r Hv Hpath Hm Hcred.
  pose proof (ServeHTTP_puturl w r Hv Hpath Hm Hcred) as Hserve.
  assert (Hdecode_error : forall e,
            JSON.Decode (HTTP.Body r) "tag" "url" = inr e ->
            ServeHTTP routes w r
            = (http_Error (TextErr "Invalid request body: " (JsonError e))
                 HTTP.StatusBadRequest, w)).
  { intros e He. now rewrite Hserve, He. }
  assert (Hdecoded : forall t u,
            JSON.Decode (HTTP.Body r) "tag" "url" = inl (t, u) ->
            StatusCode (fst (ServeHTTP routes w r)) <> HTTP.StatusBadRequest).
  { intros t u Hdec. rewrite Hserve, Hdec.
    destruct (SQL.Exec_insert (db w) t u) as [d [e|]]; simpl; discriminate. }
  assert (Hfields : forall members t u,
            JSON.readValue (HTTP.Body r) = inl (JSON.Obj members) ->
            JSON.Decode (HTTP.Body r) "tag" "url" = inl (t, u) ->
            ((forall k v, In (k, v) members -> JSON.matches k "tag" = false) ->
             t = "")
            /\ ((forall k v, In (k, v) members -> JSON.matches k "url" = false) ->
                u = "")).
  { intros members t u Hread Hdec.
    unfold JSON.Decode in Hdec. rewrite Hread in Hdec. simpl in Hdec.
    split; intros Hno.
    + pose proof (object_without_first "tag" "url" members "" "" None Hno) as Ha.
      destruct (JSON.object "tag" "url" members "" "" None) as [[a b] [e|]];
        [discriminate|].
      simpl in Ha. congruence.
    + pose proof (object_without_second "tag" "url" members "" "" None Hno) as Hb.
      destruct (JSON.object "tag" "url" members "" "" None) as [[a b] [e|]];
        [discriminate|].
      simpl in Hb. congruence. }
  assert (Hstatus : StatusCode (fst (ServeHTTP routes w r)) = HTTP.StatusBadRequest
                    <-> exists e, JSON.Decode (HTTP.Body r) "tag" "url" = inr e).
  { destruct (JSON.Decode (HTTP.Body r) "tag" "url") as [[t u]|e] eqn:Hdec.
    - split.
      + intros H. now destruct (Hdecoded t u eq_refl).
      + intros (e & He). discriminate He.
    - split; [intros _; now exists e|].
      intros _. now rewrite (Hdecode_error e eq_refl). }
  split; [|split; [|split; [|split; [|split; [|split; [|split]]]]]].
  - intros e He. apply Hdecode_error. unfold JSON.Decode. now rewrite He.
  - exact Hdecode_error.
  - exact Hdecoded.
  - exact Hfields.
  - rewrite Hstatus. apply Decode_error_cases.
  - intros Hbad. apply Hstatus in Hbad. destruct Hbad as (e & He).
    now rewrite (Hdecode_error e He).
  - intros e He. now apply (readValue_error_not_Valid _ e).
  - intros v Hread Hacc.
    destruct (unmarshal_accepted "tag" "url" v Hacc) as (t & u & Hun).
    assert (Hdec : JSON.Decode (HTTP.Body r) "tag" "url" = inl (t, u))
      by (unfold JSON.Decode; now rewrite Hread).
    exists t, u. split; [exact Hdec|]. split; [now rewrite Hserve, Hdec|].
    split; [|split].
    + intros members ->. now apply (Hfields members).
    + intros ->. simpl in Hun. now injection Hun as <- <-.
    + intros rest r' Hpath' Hm' Hcred' Hbody.
      rewrite (ServeHTTP_puturl w r' Hv Hpath' Hm' Hcred'), Hserve, Hbody.
      now rewrite (Decode_first_value _ rest "tag" "url" v Hread Hacc).
Qed.

Lemma puturl_bad_request_iff_decode_error_witness :
  let w := Sample.world [] in
  let r := Sample.request "POST" "/puturl" "tag=go" in
  ServeHTTP routes w r
  = (http_Error (TextErr "Invalid request body: " (JsonError JSON.SyntaxError))
       HTTP.StatusBadRequest, w)
  /\ JSON.Valid (HTTP.Body r) = false.
Proof.
  intros w r.
  assert (Hv : validated (cfg w)) by reflexivity.
  destruct (puturl_bad_request_iff_decode_error w r Hv eq_refl eq_refl eq_refl)
    as (Hsyntax & _ & _ & _ & _ & _ & Hvalid & _).
  split.
  - apply Hsyntax. reflexivity.
  - apply (Hvalid JSON.SyntaxError). reflexivity.
Defined.

(** C4 as stated fails, on both of its cases. The body [{}] is JSON and has
    neither field, yet the authorized POST is answered [success], not 400,
    and a row with an empty tag and an empty url is in the table
    afterwards. And bodies that are not JSON but begin with a JSON value
    the decoder accepts are answered [success] and insert that row too. *)
Lemma puturl_accepts_body_without_fields :
  let w := Sample.world [] in
  let r := Sample.request "POST" "/puturl" "{}" in
  (JSON.readValue (HTTP.Body r) = inl (JSON.Obj [])
   /\ JSON.Valid (HTTP.Body r) = true
   /\ ServeHTTP routes w r
      = (fmt_Fprint "success",
         set_db w (SQL.mkDB SQL.ReadWrite (Some [ SQL.mkEntry 1 "" "" ])))
   /\ SQL.entries (db (snd (ServeHTTP routes w r))) = Some [ SQL.mkEntry 1 "" "" ]
   /\ ~ (StatusCode (fst (ServeHTTP routes w r)) = HTTP.StatusBadRequest
         /\ snd (ServeHTTP routes w r) = w))
  /\ forall body,
       In body [ "{} and more"; "{}}} this is not JSON"; "null!!!" ] ->
       let r' := Sample.request "POST" "/puturl" body in
       JSON.Valid body = false
       /\ fst (ServeHTTP routes w r') = fmt_Fprint "success"
       /\ SQL.entries (db (snd (ServeHTTP routes w r')))
          = Some [ SQL.mkEntry 1 "" "" ]
       /\ ~ (StatusCode (fst (ServeHTTP routes w r')) = HTTP.StatusBadRequest
             /\ snd (ServeHTTP routes w r') = w).
Proof.
  intros w r. split.
  - split; [reflexivity|]. split; [reflexivity|]. split; [reflexivity|].
    split; [reflexivity|].
    intros [Hstatus _]. vm_compute in Hstatus. discriminate Hstatus.
  - intros body Hin.
    assert (Hcases : body = "{} and more" \/ body = "{}}} this is not JSON"
                     \/ body = "null!!!")
      by (simpl in Hin; intuition congruence).
    destruct Hcases as [-> | [-> | ->]];
      (split; [reflexivity|]; split; [reflexivity|]; split; [reflexivity|];
       intros [Hstatus _]; vm_compute in Hstatus; discriminate Hstatus).
Qed.

(** ** [/geturl] *)

Lemma find_unique_tag (rows : list SQL.Entry) (e : SQL.Entry) :
  NoDup (map SQL.tag rows) ->
  In e rows ->
  find (fun e' => String.eqb (SQL.tag e') (SQL.tag e)) rows = Some e.
Proof.
  induction rows as [|e0 rows IH]; simpl; intros Hnd Hin; [contradiction|].
  inversion Hnd as [|x l Hnotin Hnd']; subst.
  destruct (String.eqb_spec (SQL.tag e0) (SQL.tag e)) as [Heq|Hne].
  - destruct Hin as [->|Hin]; [reflexivity|].
    exfalso. apply Hnotin. rewrite Heq. apply list_elem_of_In. now apply in_map.
  - destruct Hin as [->|Hin]; [contradiction|]. now apply IH.
Qed.

Lemma retrieveHandler_state (w : World) (r : HTTP.Request) :
  snd (retrieveHandler w r) = w.
Proof.
  unfold retrieveHandler.
  destruct (String.eqb _ ""); [reflexivity|].
  destruct (SQL.QueryRow_url _ _) as [u|[]]; reflexivity.
Qed.

Lemma retrieveHandler_found (w : World) (r : HTTP.Request) (t u : string) :
  HTTP.Values_Get (HTTP.Query (HTTP.Url r)) "tag" = t ->
  t <> "" ->
  SQL.QueryRow_url (db w) t = inl u ->
  retrieveHandler w r = (http_Redirect u HTTP.StatusFound, w).
Proof.
  intros Ht Hne Hq. unfold retrieveHandler. rewrite Ht.
  destruct (String.eqb_spec t ""); [contradiction|]. now rewrite Hq.
Qed.

Lemma retrieveHandler_empty (w : World) (r : HTTP.Request) :
  HTTP.Values_Get (HTTP.Query (HTTP.Url r)) "tag" = "" ->
  retrieveHandler w r
  = (http_Error (Text "Tag is required") HTTP.StatusBadRequest, w).
Proof. intros Ht. unfold retrieveHandler. now rewrite Ht. Qed.

(** C6. A request to [/geturl] (of any method) never changes the state.
    Without a [tag] parameter, or with an empty one, the answer is 400. In
    a working store, a tag no row carries is answered 404, and a tag
    carried by a row with url [u] is answered by a redirect to [u] with
    status 302 (the url is not written as the body). *)
Theorem geturl_outcomes :
  forall (w : World) (r : HTTP.Request) (rows : list SQL.Entry),
    holds w rows ->
    NoDup (map SQL.tag rows) ->
    HTTP.Path (HTTP.Url r) = "/geturl" ->
    let t := HTTP.Values_Get (HTTP.Query (HTTP.Url r)) "tag" in
    snd (ServeHTTP routes w r) = w
    /\ (HTTP.Query (HTTP.Url r) !! "tag" = None \/ t = "" ->
        fst (ServeHTTP routes w r)
        = http_Error (Text "Tag is required") HTTP.StatusBadRequest)
    /\ (t <> "" -> SQL.has_tag t rows = false ->
        fst (ServeHTTP routes w r)
        = http_Error (Text "No URL found for the given tag") HTTP.StatusNotFound)
    /\ (t <> "" ->
        forall e, In e rows -> SQL.tag e = t ->
        fst (ServeHTTP routes w r) = http_Redirect (SQL.url e) HTTP.StatusFound).
Proof.
  intros w r rows Hrows Hnd Hpath t.
  assert (Hserve : ServeHTTP routes w r = retrieveHandler w r)
    by (unfold ServeHTTP; now rewrite Hpath).
  rewrite Hserve. unfold holds in Hrows.
  split; [apply retrieveHandler_state|]. split; [|split].
  - intros Hmiss.
    assert (Hempty : t = "").
    { destruct Hmiss as [Hnone|He]; [|exact He].
      unfold t, HTTP.Values_Get. now rewrite Hnone. }
    now rewrite retrieveHandler_empty.
  - intros Hne Habsent. unfold retrieveHandler. fold t.
    destruct (String.eqb_spec t ""); [contradiction|].
    unfold SQL.QueryRow_url. rewrite Hrows. simpl.
    now rewrite (has_tag_false_find t rows Habsent).
  - intros Hne e Hin Htag.
    rewrite (retrieveHandler_found w r t (SQL.url e)); try reflexivity;
      try assumption.
    unfold SQL.QueryRow_url. rewrite Hrows. simpl.
    rewrite <- Htag. now rewrite (find_unique_tag rows e Hnd Hin).
Qed.

Lemma geturl_outcomes_witness :
  let rows := [ SQL.mkEntry 1 "go" "https://go.dev" ] in
  ServeHTTP routes (Sample.world rows) (Sample.lookup "go")
  = (http_Redirect "https://go.dev" HTTP.StatusFound, Sample.world rows)
  /\ fst (ServeHTTP routes (Sample.world rows) (Sample.lookup "rocq"))
     = http_Error (Text "No URL found for the given tag") HTTP.StatusNotFound
  /\ fst (ServeHTTP routes (Sample.world rows) (Sample.lookup ""))
     = http_Error (Text "Tag is required") HTTP.StatusBadRequest.
Proof.
  intros rows.
  assert (Hrows : holds (Sample.world rows) rows) by reflexivity.
  assert (Hnd : NoDup (map SQL.tag rows))
    by (apply NoDup_singleton).
  split; [|split].
  - destruct (geturl_outcomes (Sample.world rows) (Sample.lookup "go") rows
                Hrows Hnd eq_refl)
      as (Hstate & _ & _ & Hfound).
    rewrite (surjective_pairing (ServeHTTP routes _ _)).
    rewrite Hstate.
    rewrite (Hfound ltac:(discriminate) (SQL.mkEntry 1 "go" "https://go.dev")
               ltac:(now left) eq_refl).
    reflexivity.
  - destruct (geturl_outcomes (Sample.world rows) (Sample.lookup "rocq") rows
                Hrows Hnd eq_refl)
      as (_ & _ & Habsent & _).
    apply Habsent; [discriminate|reflexivity].
  - destruct (geturl_outcomes (Sample.world rows) (Sample.lookup "") rows
                Hrows Hnd eq_refl)
      as (_ & Hempty & _).
    apply Hempty. right. reflexivity.
Defined.

(** ** Saving, then looking up *)

Lemma QueryRow_url_last (rows : list SQL.Entry) (i : Z) (t u : string) :
  SQL.has_tag t rows = false ->
  SQL.QueryRow_url (SQL.mkDB SQL.ReadWrite (Some (rows ++ [ SQL.mkEntry i t u ]))) t = inl u.
Proof.
  intros Hfresh. unfold SQL.QueryRow_url. simpl.
  rewrite find_tag_app, (has_tag_false_find t rows Hfresh). simpl.
  now rewrite String.eqb_refl.
Qed.

Lemma QueryRow_url_app (r1 r2 : list SQL.Entry) (t u : string) :
  SQL.QueryRow_url (SQL.mkDB SQL.ReadWrite (Some r1)) t = inl u ->
  SQL.QueryRow_url (SQL.mkDB SQL.ReadWrite (Some (r1 ++ r2))) t = inl u.
Proof.
  unfold SQL.QueryRow_url. simpl. rewrite find_tag_app.
  destruct (find _ r1); [trivial|discriminate].
Qed.

Lemma ServeHTTP_lookup (w : World) (r : HTTP.Request) (t u : string) :
  lookup_request r t ->
  t <> "" ->
  SQL.QueryRow_url (db w) t = inl u ->
  ServeHTTP routes w r = (http_Redirect u HTTP.StatusFound, w).
Proof.
  intros [Hpath Ht] Hne Hq. unfold ServeHTTP. rewrite Hpath. simpl.
  now apply (retrieveHandler_found w r t u).
Qed.

(** C3, as the code has it. In a working store with no row for either of
    two distinct tags, authorized saves of [(t1, u1)] and then [(t2, u2)]
    both succeed; afterwards the query for [t1] yields [u1] and the one for
    [t2] yields [u2], and a request to [/geturl] for either tag is
    redirected to its url provided the tag is not the empty string. *)
Theorem save_then_lookup_distinct_tags :
  forall (w : World) (rows : list SQL.Entry) (s1 s2 l1 l2 : HTTP.Request)
         (t1 t2 u1 u2 : string),
    validated (cfg w) ->
    holds w rows ->
    t1 <> t2 ->
    SQL.has_tag t1 rows = false ->
    SQL.has_tag t2 rows = false ->
    save_request w s1 t1 u1 ->
    save_request w s2 t2 u2 ->
    lookup_request l1 t1 ->
    lookup_request l2 t2 ->
    exists w1 w2 : World,
      ServeHTTP routes w s1 = (fmt_Fprint "success", w1)
      /\ ServeHTTP routes w1 s2 = (fmt_Fprint "success", w2)
      /\ SQL.QueryRow_url (db w2) t1 = inl u1
      /\ SQL.QueryRow_url (db w2) t2 = inl u2
      /\ (t1 <> "" ->
          ServeHTTP routes w2 l1 = (http_Redirect u1 HTTP.StatusFound, w2))
      /\ (t2 <> "" ->
          ServeHTTP routes w2 l2 = (http_Redirect u2 HTTP.StatusFound, w2)).
Proof.
  intros w rows s1 s2 l1 l2 t1 t2 u1 u2 Hv Hrows Hdiff Hf1 Hf2 Hs1 Hs2 Hl1 Hl2.
  set (e1 := SQL.mkEntry (SQL.next_id rows) t1 u1).
  set (rows1 := rows ++ [ e1 ]).
  set (e2 := SQL.mkEntry (SQL.next_id rows1) t2 u2).
  set (w1 := set_db w (SQL.mkDB SQL.ReadWrite (Some rows1))).
  set (w2 := set_db w1 (SQL.mkDB SQL.ReadWrite (Some (rows1 ++ [ e2 ])))).
  assert (Hf2' : SQL.has_tag t2 rows1 = false).
  { unfold rows1. rewrite has_tag_app, Hf2. unfold SQL.has_tag. simpl.
    destruct (String.eqb_spec t1 t2); [contradiction|reflexivity]. }
  assert (Hq1 : SQL.QueryRow_url (db w2) t1 = inl u1).
  { simpl. apply QueryRow_url_app. unfold rows1, e1.
    now apply QueryRow_url_last. }
  assert (Hq2 : SQL.QueryRow_url (db w2) t2 = inl u2).
  { simpl. unfold e2. now apply QueryRow_url_last. }
  exists w1, w2. repeat split.
  - now apply ServeHTTP_save_fresh.
  - apply (ServeHTTP_save_fresh w1 rows1 s2 t2 u2); try assumption. reflexivity.
  - exact Hq1.
  - exact Hq2.
  - intros Hne. now apply (ServeHTTP_lookup w2 l1 t1 u1).
  - intros Hne. now apply (ServeHTTP_lookup w2 l2 t2 u2).
Qed.

Lemma save_then_lookup_distinct_tags_witness :
  exists w1 w2 : World,
    ServeHTTP routes (Sample.world [])
      (Sample.request "POST" "/puturl"
         (Sample.object2 "tag" "go" "url" "https://go.dev"))
    = (fmt_Fprint "success", w1)
    /\ ServeHTTP routes w1
         (Sample.request "POST" "/puturl"
            (Sample.object2 "tag" "rocq" "url" "https://rocq-prover.org"))
       = (fmt_Fprint "success", w2)
    /\ ServeHTTP routes w2 (Sample.lookup "go")
       = (http_Redirect "https://go.dev" HTTP.StatusFound, w2)
    /\ ServeHTTP routes w2 (Sample.lookup "rocq")
       = (http_Redirect "https://rocq-prover.org" HTTP.StatusFound, w2).
Proof.
  assert (Hv : validated (cfg (Sample.world []))) by reflexivity.
  assert (Hrows : holds (Sample.world []) []) by reflexivity.
  assert (Hdiff : "go" <> "rocq") by discriminate.
  assert (Hs1 : save_request (Sample.world [])
                  (Sample.request "POST" "/puturl"
                     (Sample.object2 "tag" "go" "url" "https://go.dev"))
                  "go" "https://go.dev")
    by (repeat split; reflexivity).
  assert (Hs2 : save_request (Sample.world [])
                  (Sample.request "POST" "/puturl"
                     (Sample.object2 "tag" "rocq" "url" "https://rocq-prover.org"))
                  "rocq" "https://rocq-prover.org")
    by (repeat split; reflexivity).
  assert (Hl1 : lookup_request (Sample.lookup "go") "go")
    by (split; reflexivity).
  assert (Hl2 : lookup_request (Sample.lookup "rocq") "rocq")
    by (split; reflexivity).
  destruct (save_then_lookup_distinct_tags (Sample.world []) [] _ _ _ _ _ _ _ _
              Hv Hrows Hdiff eq_refl eq_refl Hs1 Hs2 Hl1 Hl2)
    as (w1 & w2 & H1 & H2 & _ & _ & Hgo & Hrocq).
  exists w1, w2. repeat split.
  - exact H1.
  - exact H2.
  - apply Hgo. discriminate.
  - apply Hrocq. discriminate.
Defined.

(** C3 as stated fails for the empty tag: saved under an authorized POST
    together with a second, different tag, it is in the table with its url,
    but the request to [/geturl] for it is answered 400, not by a redirect
    to that url. *)
Lemma empty_tag_is_saved_but_not_looked_up :
  let w := Sample.world [] in
  let s1 := Sample.request "POST" "/puturl"
              (Sample.object2 "tag" "" "url" "https://go.dev") in
  let s2 := Sample.request "POST" "/puturl"
              (Sample.object2 "tag" "rocq" "url" "https://rocq-prover.org") in
  let w2 := set_db w (SQL.mkDB SQL.ReadWrite
                        (Some [ SQL.mkEntry 1 "" "https://go.dev";
                                SQL.mkEntry 2 "rocq" "https://rocq-prover.org" ])) in
  "" <> "rocq"
  /\ save_request w s1 "" "https://go.dev"
  /\ save_request w s2 "rocq" "https://rocq-prover.org"
  /\ lookup_request (Sample.lookup "") ""
  /\ snd (ServeHTTP routes (snd (ServeHTTP routes w s1)) s2) = w2
  /\ fst (ServeHTTP routes w s1) = fmt_Fprint "success"
  /\ fst (ServeHTTP routes (snd (ServeHTTP routes w s1)) s2) = fmt_Fprint "success"
  /\ ServeHTTP routes w2 (Sample.lookup "")
     = (http_Error (Text "Tag is required") HTTP.StatusBadRequest, w2)
  /\ fst (ServeHTTP routes w2 (Sample.lookup ""))
     <> http_Redirect "https://go.dev" HTTP.StatusFound.
Proof.
  intros w s1 s2 w2.
  split; [discriminate|].
  split; [repeat split; reflexivity|].
  split; [repeat split; reflexivity|].
  split; [split; reflexivity|].
  split; [reflexivity|].
  split; [reflexivity|].
  split; [reflexivity|].
  split; [reflexivity|].
  discriminate.
Qed.

(** ** Startup *)

Lemma missing_reads_empty (f : INI.File) (section key : string) :
  missing f section key -> INI.String_ f section key = "".
Proof.
  unfold missing, INI.String_.
  destruct (f !! section) as [sec|]; [|reflexivity].
  now intros ->.
Qed.

Lemma parseConfig_missing (f : INI.File) (section key : string) :
  In (section, key) required ->
  missing f section key ->
  fst (parseConfig (inl f)) = false.
Proof.
  intros Hin Hmiss.
  destruct (fst (parseConfig (inl f))) eqn:Hok; [|reflexivity].
  exfalso. apply (validated_required f section key Hok Hin).
  now apply missing_reads_empty.
Qed.

(** C8. When the loaded configuration lacks one of the required keys,
    [main] ends in [os.Exit(1)]: no handler is registered and no listener
    is started. *)
Theorem missing_key_exits_before_listening :
  forall (env : Env) (f : INI.File) (section key : string),
    load env = inl f ->
    In (section, key) required ->
    missing f section key ->
    (exists out, main env = Exit 1 out)
    /\ listeners_of (main env) = [].
Proof.
  intros env f section key Hload Hin Hmiss.
  pose proof (parseConfig_missing f section key Hin Hmiss) as Hfail.
  unfold main. rewrite Hload.
  destruct (parseConfig (inl f)) as [ok out]. simpl in Hfail. subst ok.
  split; [now exists out|reflexivity].
Qed.

Lemma missing_key_exits_before_listening_witness :
  let f : INI.File := delete "general" Sample.config in
  main (mkEnv (inl f) (SQL.mkDB SQL.ReadWrite None) Sample.accept)
  = Exit 1 ("Missing key: 'database' under section: general" +:+ LF).
Proof.
  intros f.
  destruct (missing_key_exits_before_listening
              (mkEnv (inl f) (SQL.mkDB SQL.ReadWrite None) Sample.accept)
              f "general" "database" eq_refl)
    as ((out & Hexit) & _).
  - unfold required. simpl. tauto.
  - reflexivity.
  - rewrite Hexit. vm_compute in Hexit. now injection Hexit as <-.
Defined.

(** [initDB] never fails on account of the statement it runs: whatever
    [db.Exec] returns, the handle is left in [db] and [main] goes on. *)
Lemma main_serves_whatever_the_schema_statement_returns
    (env : Env) (f : INI.File) :
  load env = inl f ->
  validated f ->
  exists ls,
    main env
    = Serve (mkWorld f (fst (SQL.Exec_create (disk env))) [] (smtp_relay env))
        routes ls.
Proof.
  intros Hload Hv. unfold main. rewrite Hload.
  unfold validated in Hv.
  destruct (parseConfig (inl f)) as [ok out]. simpl in Hv. subst ok.
  simpl. eexists. reflexivity.
Qed.

(** C9 does not hold of [initDB]: with a valid configuration and a database
    file SQLite cannot open, the [CREATE TABLE] statement returns an error,
    [initDB] drops it, and [main] goes on to register the handlers and
    start the listener instead of ending the process; the failure only
    shows later, as the 500 of a request that needs the table. *)
Theorem initDB_drops_the_schema_error :
  let disk := SQL.mkDB SQL.Unavailable None in
  let env := mkEnv (inl Sample.config) disk Sample.accept in
  let w := mkWorld Sample.config disk [] Sample.accept in
  snd (SQL.Exec_create disk) = Some SQL.ErrCantOpen
  /\ initDB disk = inl disk
  /\ main env = Serve w routes [ ListenAndServe ":8080" ]
  /\ ServeHTTP routes w
       (Sample.request "POST" "/puturl"
          (Sample.object2 "tag" "go" "url" "https://go.dev"))
     = (http_Error (TextErr "Failed to save data: " (SqlError SQL.ErrCantOpen))
          HTTP.StatusInternalServerError, w).
Proof.
  intros disk env w. repeat split; reflexivity.
Qed.

(** ** The mux *)

Lemma Handler_routes_cases (path : string) :
  (path = "/ip" /\ Handler routes path = ipHandler)
  \/ (path = "/notify" /\ Handler routes path = authWrapper notifyHandler)
  \/ (path = "/puturl" /\ Handler routes path = authWrapper saveHandler)
  \/ (path = "/geturl" /\ Handler routes path = retrieveHandler)
  \/ (path <> "/ip" /\ path <> "/notify" /\ path <> "/puturl"
      /\ path <> "/geturl"
      /\ Handler routes path
         = fun w _ =>
             (http_Error (Text "404 page not found") HTTP.StatusNotFound, w)).
Proof.
  unfold routes, Handler.
  destruct (String.eqb_spec "/ip" path) as [<-|H1]; [now left|].
  destruct (String.eqb_spec "/notify" path) as [<-|H2]; [right; now left|].
  destruct (String.eqb_spec "/puturl" path) as [<-|H3];
    [right; right; now left|].
  destruct (String.eqb_spec "/geturl" path) as [<-|H4];
    [right; right; right; now left|].
  right; right; right; right. repeat split; congruence.
Qed.

(** What the mux does with a request: it runs the handler found for the
    path, or answers itself and leaves the state alone. *)
Lemma ServeHTTP_outcome (mux : ServeMux) (w : World) (r : HTTP.Request) :
  ServeHTTP mux w r = Handler mux (HTTP.Path (HTTP.Url r)) w r
  \/ ServeHTTP mux w r = (w_WriteHeader HTTP.StatusBadRequest, w)
  \/ ServeHTTP mux w r
     = (mux_Redirect (HTTP.cleanPath (HTTP.Path (HTTP.Url r))), w).
Proof.
  unfold ServeHTTP.
  destruct (String.eqb (HTTP.Path (HTTP.Url r)) "*"); [right; now left|].
  destruct (String.eqb (HTTP.cleanPath _) _); [now left|].
  destruct (String.eqb (HTTP.Method r) "CONNECT"); [now left|].
  right; now right.
Qed.


(** ** What every state of the running server satisfies *)

Lemma Exec_insert_unique (rows : list SQL.Entry) (t u : string) (d : SQL.DB) :
  NoDup (map SQL.tag rows) ->
  SQL.Exec_insert (SQL.mkDB SQL.ReadWrite (Some rows)) t u = (d, None) ->
  exists rows', d = SQL.mkDB SQL.ReadWrite (Some rows') /\ NoDup (map SQL.tag rows').
Proof.
  intros Hnd. unfold SQL.Exec_insert. simpl.
  destruct (SQL.has_tag t rows) eqn:Hfresh; [discriminate|].
  intros [= <-]. eexists. split; [reflexivity|].
  rewrite map_app. simpl. apply NoDup_app. split; [exact Hnd|]. split.
  - intros x Hx Hx'. apply list_elem_of_singleton in Hx'. subst x.
    apply list_elem_of_In, in_map_iff in Hx as (e & He & Hin).
    unfold SQL.has_tag in Hfresh.
    assert (Hex : existsb (fun e => String.eqb (SQL.tag e) t) rows = true).
    { apply existsb_exists. exists e. split; [exact Hin|].
      rewrite He. apply String.eqb_refl. }
    congruence.
  - apply NoDup_singleton.
Qed.

Lemma saveHandler_sound (w : World) (r : HTTP.Request) :
  sound w -> sound (snd (saveHandler w r)).
Proof.
  intros Hs. pose proof Hs as (Hv & rows & Hrows & Hnd). unfold saveHandler.
  destruct (negb _); [exact Hs|].
  destruct (JSON.Decode _ _ _) as [[t u]|e]; [|exact Hs].
  clear Hs. unfold holds in Hrows. rewrite Hrows.
  destruct (SQL.Exec_insert _ t u) as [d [e|]] eqn:Hins; simpl.
  - split; [exact Hv|]. now exists rows.
  - destruct (Exec_insert_unique rows t u d Hnd Hins) as (rows' & -> & Hnd').
    split; [exact Hv|]. now exists rows'.
Qed.

Lemma notifyHandler_sound (w : World) (r : HTTP.Request) :
  sound w -> sound (snd (notifyHandler w r)).
Proof.
  intros Hs. unfold notifyHandler.
  destruct (negb _); [exact Hs|].
  destruct (JSON.Decode _ _ _) as [[l b]|e]; [|exact Hs].
  destruct (String.eqb l "" || String.eqb b ""); [exact Hs|].
  match goal with |- context [relay w ?m] => destruct (relay w m) end;
    exact Hs.
Qed.

Lemma authWrapper_sound (next : HandlerFunc) (w : World) (r : HTTP.Request) :
  (sound w -> sound (snd (next w r))) ->
  sound w -> sound (snd (authWrapper next w r)).
Proof.
  intros Hnext Hs.
  destruct (authWrapper_inv next w r) as [-> | (_ & _ & ->)];
    [exact Hs|now apply Hnext].
Qed.

Lemma ServeHTTP_sound (w : World) (r : HTTP.Request) :
  sound w -> sound (snd (ServeHTTP routes w r)).
Proof.
  intros Hs.
  destruct (ServeHTTP_outcome routes w r) as [-> | [-> | ->]];
    [|exact Hs|exact Hs].
  destruct (Handler_routes_cases (HTTP.Path (HTTP.Url r)))
    as [(_ & ->) | [(_ & ->) | [(_ & ->) | [(_ & ->) | (_ & _ & _ & _ & ->)]]]].
  - exact Hs.
  - apply authWrapper_sound; [apply notifyHandler_sound|exact Hs].
  - apply authWrapper_sound; [apply saveHandler_sound|exact Hs].
  - now rewrite retrieveHandler_state.
  - exact Hs.
Qed.

Lemma serve_all_sound (rs : list HTTP.Request) (w : World) :
  sound w -> sound (serve_all w rs).
Proof.
  revert w. induction rs as [|r rs IH]; intros w Hs; [exact Hs|].
  apply IH. now apply ServeHTTP_sound.
Qed.

(** X13. The states of a server that [main] started on a database file it
    can read and write, with no tag twice in a table it may have found
    there, are sound after any run of requests: the handlers are the registered ones, the
    configuration is the validated one, the table exists and no tag
    occurs twice in it. (This is where the hypotheses [validated] and
    [holds] of the properties above come from.) *)
Lemma main_serves_sound_states (env : Env) (w : World) (mux : ServeMux)
    (ls : list Listener) (rs : list HTTP.Request) :
  main env = Serve w mux ls ->
  SQL.access (disk env) = SQL.ReadWrite ->
  NoDup (map SQL.tag (default [] (SQL.entries (disk env)))) ->
  mux = routes /\ sound (serve_all w rs).
Proof.
  unfold main. intros Hmain Husable Hnd.
  destruct (load env) as [f|err]; [|discriminate Hmain].
  destruct (parseConfig (inl f)) as [[|] out] eqn:Hparse; [|discriminate].
  unfold initDB, SQL.Open, SQL.Exec_create in Hmain. simpl in Hmain.
  rewrite Husable in Hmain. simpl in Hmain.
  injection Hmain as <- <- _. split; [reflexivity|].
  apply serve_all_sound. split.
  - change (fst (parseConfig (inl f)) = true). now rewrite Hparse.
  - eexists. split; [reflexivity|exact Hnd].
Qed.

(** ** The decoder reads one value *)

(** [Decode] stops at the end of the first JSON value: bytes after it are
    not looked at. *)
Lemma Decode_ignores_what_follows_the_value :
  JSON.Decode ("{} and more" : string) "tag" "url" = inl ("", "")
  /\ JSON.Decode (Sample.object2 "tag" "go" "url" "https://go.dev" +:+ "]")
       "tag" "url"
     = inl ("go", "https://go.dev").
Proof. split; reflexivity. Qed.

(** * Further properties of [main.go] *)

(** ** [ipHandler] on every remote address *)

Lemma ipHandler_host_port (w : World) (r : HTTP.Request) (host port : string) :
  HTTP.RemoteAddr r = host +:+ String ":" port ->
  Str.ContainsByte port ":" = false ->
  ipHandler w r = (fmt_Fprint host, w).
Proof.
  intros Haddr Hport. unfold ipHandler. rewrite Haddr.
  rewrite Split_app, (Split_without_sep _ _ Hport), length_app. simpl.
  replace (length (Str.Split host ":") + 1 - 1)
    with (length (Str.Split host ":")) by lia.
  rewrite take_app_length. now rewrite (Join_Split host ":").
Qed.

(** A string with the separator in it splits at the last one. *)
Lemma last_separator (s : string) (sep : ascii) :
  Str.ContainsByte s sep = true ->
  exists a b, s = a +:+ String sep b /\ Str.ContainsByte b sep = false.
Proof.
  induction s as [|c s IH]; simpl; [discriminate|].
  intros H. destruct (Str.ContainsByte s sep) eqn:Hs.
  - destruct (IH eq_refl) as (a & b & -> & Hb).
    exists (String c a), b. split; [reflexivity|exact Hb].
  - rewrite orb_false_r in H. apply Ascii.eqb_eq in H. subst c.
    exists "", s. split; [reflexivity|exact Hs].
Qed.

(** X1. A request to [/ip] whose remote address has no colon in it (an
    address without a port, or the empty string) is answered 200 with an
    empty body: the address itself is dropped, and nothing panics. *)
Theorem ip_without_colon_answers_empty :
  forall (w : World) (r : HTTP.Request),
    HTTP.Path (HTTP.Url r) = "/ip" ->
    Str.ContainsByte (HTTP.RemoteAddr r) ":" = false ->
    ServeHTTP routes w r = (fmt_Fprint "", w).
Proof.
  intros w r Hpath Hno. unfold ServeHTTP. rewrite Hpath. simpl.
  unfold ipHandler. now rewrite (Split_without_sep _ _ Hno).
Qed.

Lemma ip_without_colon_answers_empty_witness :
  ServeHTTP routes (Sample.world []) (Sample.from_addr "@")
  = (fmt_Fprint "", Sample.world []).
Proof.
  apply (ip_without_colon_answers_empty (Sample.world []) (Sample.from_addr "@"));
    reflexivity.
Defined.

(** X2. A request to [/ip] whose remote address has a colon in it is
    answered with what precedes the last colon: the address is the body,
    a colon and a rest without colons, whatever the address looks like. *)
Theorem ip_answers_what_precedes_the_last_colon :
  forall (w : World) (r : HTTP.Request),
    HTTP.Path (HTTP.Url r) = "/ip" ->
    Str.ContainsByte (HTTP.RemoteAddr r) ":" = true ->
    exists host port,
      HTTP.RemoteAddr r = host +:+ ":" +:+ port
      /\ Str.ContainsByte port ":" = false
      /\ ServeHTTP routes w r = (fmt_Fprint host, w).
Proof.
  intros w r Hpath Hcolon.
  destruct (last_separator _ _ Hcolon) as (host & port & Haddr & Hport).
  exists host, port. split; [exact Haddr|]. split; [exact Hport|].
  unfold ServeHTTP. rewrite Hpath. simpl.
  now apply (ipHandler_host_port w r host port).
Qed.

Lemma ip_answers_what_precedes_the_last_colon_witness :
  exists host port,
    "fe80::1%eth0:8080:x" = host +:+ ":" +:+ port
    /\ Str.ContainsByte port ":" = false
    /\ ServeHTTP routes (Sample.world []) (Sample.from_addr "fe80::1%eth0:8080:x")
       = (fmt_Fprint host, Sample.world []).
Proof.
  apply (ip_answers_what_precedes_the_last_colon (Sample.world [])
           (Sample.from_addr "fe80::1%eth0:8080:x"));
    reflexivity.
Defined.

(** ** [notifyHandler] *)

(** What [notifyHandler] does once the method is POST and the body has
    been decoded. *)
Lemma notifyHandler_decoded (w : World) (r : HTTP.Request) (l b : string) :
  HTTP.Method r = "POST" ->
  JSON.Decode (HTTP.Body r) "level" "body" = inl (l, b) ->
  notifyHandler w r
  = if String.eqb l "" || String.eqb b "" then
      (http_Error (Text "Invalid request body") HTTP.StatusBadRequest, w)
    else
      match relay w (notification w l b) with
      | Some err =>
          (http_Error (TextErr "RequestFailed: " (SmtpError err))
             HTTP.StatusInternalServerError, w)
      | None =>
          (fmt_Fprint "success",
           set_outbox w (outbox w ++ [ notification w l b ]))
      end.
Proof. intros Hm Hdec. unfold notifyHandler. now rewrite Hm, Hdec. Qed.

Lemma ServeHTTP_notify_authorized (w : World) (r : HTTP.Request) :
  validated (cfg w) ->
  HTTP.Path (HTTP.Url r) = "/notify" ->
  credential w r = secret w ->
  ServeHTTP routes w r = notifyHandler w r.
Proof.
  intros Hv Hpath Hcred. pose proof (validated_secret w Hv) as Hsec.
  unfold ServeHTTP. rewrite Hpath. simpl.
  apply authWrapper_pass; congruence.
Qed.

Lemma eqb_empty_or (l b : string) :
  l = "" \/ b = "" -> String.eqb l "" || String.eqb b "" = true.
Proof.
  intros [-> | ->]; [reflexivity|]. rewrite String.eqb_refl. apply orb_true_r.
Qed.

(** X3. An authorized POST to [/notify] whose level or body decodes to the
    empty string is answered 400 and sends nothing; that is also what
    happens to a JSON object with no member for [level], or none for
    [body] (whereas [/puturl] accepts an object without its fields). *)
Theorem notify_rejects_empty_and_missing_fields :
  forall (w : World) (r : HTTP.Request),
    validated (cfg w) ->
    HTTP.Path (HTTP.Url r) = "/notify" ->
    HTTP.Method r = "POST" ->
    credential w r = secret w ->
    (forall l b,
       JSON.Decode (HTTP.Body r) "level" "body" = inl (l, b) ->
       l = "" \/ b = "" ->
       ServeHTTP routes w r
       = (http_Error (Text "Invalid request body") HTTP.StatusBadRequest, w))
    /\ (forall members,
          JSON.readValue (HTTP.Body r) = inl (JSON.Obj members) ->
          (forall k v, In (k, v) members -> JSON.matches k "level" = false)
          \/ (forall k v, In (k, v) members -> JSON.matches k "body" = false) ->
          StatusCode (fst (ServeHTTP routes w r)) = HTTP.StatusBadRequest
          /\ snd (ServeHTTP routes w r) = w).
Proof.
  intros w r Hv Hpath Hm Hcred.
  rewrite (ServeHTTP_notify_authorized w r Hv Hpath Hcred).
  assert (Hempty : forall l b,
            JSON.Decode (HTTP.Body r) "level" "body" = inl (l, b) ->
            l = "" \/ b = "" ->
            notifyHandler w r
            = (http_Error (Text "Invalid request body") HTTP.StatusBadRequest, w)).
  { intros l b Hdec He. rewrite (notifyHandler_decoded w r l b Hm Hdec).
    now rewrite (eqb_empty_or l b He). }
  split; [exact Hempty|].
  intros members Hread Hno.
  destruct (JSON.Decode (HTTP.Body r) "level" "body") as [[l b]|e] eqn:Hdec.
  - rewrite (Hempty l b eq_refl); [split; reflexivity|].
    unfold JSON.Decode in Hdec. rewrite Hread in Hdec. simpl in Hdec.
    destruct Hno as [Hno|Hno].
    + left.
      pose proof (object_without_first "level" "body" members "" "" None Hno) as Ha.
      destruct (JSON.object "level" "body" members "" "" None) as [[a b'] [e|]];
        [discriminate|].
      simpl in Ha. congruence.
    + right.
      pose proof (object_without_second "level" "body" members "" "" None Hno) as Hb.
      destruct (JSON.object "level" "body" members "" "" None) as [[a b'] [e|]];
        [discriminate|].
      simpl in Hb. congruence.
  - unfold notifyHandler. rewrite Hm, Hdec. split; reflexivity.
Qed.

Lemma notify_rejects_empty_and_missing_fields_witness :
  ServeHTTP routes (Sample.world [])
    (Sample.request "POST" "/notify" (Sample.object2 "level" "info" "body" ""))
  = (http_Error (Text "Invalid request body") HTTP.StatusBadRequest,
     Sample.world [])
  /\ StatusCode (fst (ServeHTTP routes (Sample.world [])
                        (Sample.request "POST" "/notify" "{}")))
     = HTTP.StatusBadRequest.
Proof.
  assert (Hv : validated (cfg (Sample.world []))) by reflexivity.
  split.
  - destruct (notify_rejects_empty_and_missing_fields (Sample.world [])
                (Sample.request "POST" "/notify"
                   (Sample.object2 "level" "info" "body" ""))
                Hv eq_refl eq_refl eq_refl)
      as (Hempty & _).
    apply (Hempty "info" ""); [reflexivity|now right].
  - destruct (notify_rejects_empty_and_missing_fields (Sample.world [])
                (Sample.request "POST" "/notify" "{}")
                Hv eq_refl eq_refl eq_refl)
      as (_ & Hmissing).
    apply (Hmissing []); [reflexivity|].
    left. intros k v [].
Defined.

(** X4. Whatever request comes to [/notify], the configuration and the
    store are left alone, and either the answer is [success] and exactly
    one message went to the relay, which accepted it (the request being an
    authorized POST whose level and body are both non-empty), or the
    answer is an error and the state is as it was: nothing is recorded as
    sent that the relay refused. *)
Theorem notify_sends_one_mail_or_none :
  forall (w : World) (r : HTTP.Request),
    HTTP.Path (HTTP.Url r) = "/notify" ->
    cfg (snd (ServeHTTP routes w r)) = cfg w
    /\ db (snd (ServeHTTP routes w r)) = db w
    /\ ((fst (ServeHTTP routes w r) = fmt_Fprint "success"
         /\ exists l b,
              l <> "" /\ b <> ""
              /\ HTTP.Method r = "POST"
              /\ credential w r = secret w
              /\ JSON.Decode (HTTP.Body r) "level" "body" = inl (l, b)
              /\ relay w (notification w l b) = None
              /\ snd (ServeHTTP routes w r)
                 = set_outbox w (outbox w ++ [ notification w l b ]))
        \/ (StatusCode (fst (ServeHTTP routes w r)) <> HTTP.StatusOK
            /\ snd (ServeHTTP routes w r) = w)).
Proof.
  intros w r Hpath.
  assert (Hserve : ServeHTTP routes w r = authWrapper notifyHandler w r)
    by (unfold ServeHTTP; now rewrite Hpath).
  rewrite Hserve.
  destruct (authWrapper_inv notifyHandler w r) as [-> | (Hne & Hcred & ->)].
  { repeat split. right. split; [discriminate|reflexivity]. }
  destruct (String.eqb_spec (HTTP.Method r) "POST") as [Hm|Hm].
  2:{ rewrite (notifyHandler_wrong_method w r Hm).
      repeat split. right. split; [discriminate|reflexivity]. }
  destruct (JSON.Decode (HTTP.Body r) "level" "body") as [[l b]|e] eqn:Hdec.
  2:{ unfold notifyHandler. rewrite Hm, Hdec.
      repeat split. right. split; [discriminate|reflexivity]. }
  rewrite (notifyHandler_decoded w r l b Hm Hdec).
  destruct (String.eqb_spec l "") as [Hl|Hl]; simpl.
  { repeat split. right. split; [discriminate|reflexivity]. }
  destruct (String.eqb_spec b "") as [Hb|Hb]; simpl.
  { repeat split. right. split; [discriminate|reflexivity]. }
  destruct (relay w (notification w l b)) as [err|] eqn:Hrelay; simpl.
  { repeat split. right. split; [discriminate|reflexivity]. }
  repeat split. left. split; [reflexivity|].
  exists l, b. repeat split; assumption.
Qed.

Lemma notify_sends_one_mail_or_none_witness :
  let w := Sample.world [] in
  let r := Sample.request "POST" "/notify"
             (Sample.object2 "level" "warn" "body" "disk almost full") in
  db (snd (ServeHTTP routes w r)) = db w
  /\ outbox (snd (ServeHTTP routes w r)) = [ notification w "warn" "disk almost full" ].
Proof.
  intros w r.
  destruct (notify_sends_one_mail_or_none w r eq_refl)
    as (_ & Hdb & [(_ & l & b & _ & _ & _ & _ & Hdec & _ & Hout) | (Hcode & _)]).
  - split; [exact Hdb|]. rewrite Hout.
    assert (Hlb : (l, b) = ("warn", "disk almost full")).
    { assert (H : @inl _ JSON.Error (l, b) = inl ("warn", "disk almost full"))
        by (rewrite <- Hdec; reflexivity).
      now injection H as -> ->. }
    injection Hlb as -> ->. reflexivity.
  - exfalso. apply Hcode. reflexivity.
Defined.

(** ** The recipients of a notification *)

Lemma Split_length (s : string) (sep : ascii) :
  length (Str.Split s sep) = S (occurrences s sep).
Proof.
  induction s as [|c s IH]; simpl; [reflexivity|].
  destruct (Ascii.eqb c sep); simpl.
  - now rewrite IH.
  - pose proof (Split_nonempty s sep) as Hne.
    destruct (Str.Split s sep) as [|f fs]; [contradiction|].
    simpl in *. exact IH.
Qed.

(** X5. The recipient list has one entry for every comma-separated field of
    [sendto], empty fields included: their number is the number of commas
    plus one, the list of a text with a comma is the list of what precedes
    it followed by the list of what follows, and so a trailing comma puts
    an empty address at the end of the list handed to [smtp.SendMail]. *)
Theorem recipients_one_per_field :
  forall sendto : string,
    length (recipients sendto) = S (occurrences sendto ",")
    /\ (forall a b,
          recipients (a +:+ "," +:+ b) = recipients a ++ recipients b)
    /\ recipients (sendto +:+ ",") = recipients sendto ++ [ "" ].
Proof.
  intros sendto. unfold recipients. split; [|split].
  - rewrite length_map. apply Split_length.
  - intros a b.
    change (a +:+ "," +:+ b) with (a +:+ String "," b).
    now rewrite Split_app, map_app.
  - change (sendto +:+ ",") with (sendto +:+ String "," "").
    now rewrite Split_app, map_app.
Qed.

(** ** [checkConfig], [parseConfig] and [main] *)

Lemma checkConfig_all_nonempty (f : INI.File) (section : string)
    (keys : list string) :
  (forall key, In key keys -> INI.String_ f section key <> "") ->
  checkConfig f section keys = (true, "").
Proof.
  induction keys as [|k keys IH]; simpl; intros Hall; [reflexivity|].
  destruct (String.eqb_spec (INI.String_ f section k) "") as [He|_].
  - exfalso. apply (Hall k); [now left|exact He].
  - apply IH. intros key Hin. apply Hall. now right.
Qed.

Lemma checkConfig_first_empty (f : INI.File) (section : string)
    (pre post : list string) (k : string) :
  (forall key, In key pre -> INI.String_ f section key <> "") ->
  INI.String_ f section k = "" ->
  checkConfig f section (pre ++ k :: post)
  = (false, "Missing key: '" +:+ k +:+ "' under section: " +:+ section +:+ LF).
Proof.
  induction pre as [|p pre IH]; simpl; intros Hall Hk.
  - now rewrite Hk.
  - destruct (String.eqb_spec (INI.String_ f section p) "") as [He|_].
    + exfalso. apply (Hall p); [now left|exact He].
    + apply IH; [|exact Hk]. intros key Hin. apply Hall. now right.
Qed.

Lemma parseConfig_complete (f : INI.File) :
  (forall section key, In (section, key) required ->
     INI.String_ f section key <> "") ->
  parseConfig (inl f) = (true, "").
Proof.
  intros Hall. unfold parseConfig.
  rewrite (checkConfig_all_nonempty f "smtp" smtpKeys).
  - rewrite (checkConfig_all_nonempty f "general" generalKeys); [reflexivity|].
    intros key Hin. apply Hall. unfold required.
    apply in_or_app. right. now apply in_map.
  - intros key Hin. apply Hall. unfold required.
    apply in_or_app. left. now apply in_map.
Qed.

Lemma parseConfig_empty_value (f : INI.File) (section key : string) :
  In (section, key) required ->
  INI.String_ f section key = "" ->
  fst (parseConfig (inl f)) = false.
Proof.
  intros Hin Hempty.
  destruct (fst (parseConfig (inl f))) eqn:Hok; [|reflexivity].
  exfalso. now apply (validated_required f section key Hok Hin).
Qed.

(** X6. A required key that is in the file with an empty value is refused
    like a key that is not there: [main] ends in [os.Exit(1)] with no
    listener started. *)
Theorem empty_value_exits_before_listening :
  forall (env : Env) (f : INI.File) (section key : string)
         (sec : gmap string string),
    load env = inl f ->
    In (section, key) required ->
    f !! section = Some sec ->
    sec !! key = Some "" ->
    (exists out, main env = Exit 1 out)
    /\ listeners_of (main env) = [].
Proof.
  intros env f section key sec Hload Hin Hsec Hkey.
  assert (Hempty : INI.String_ f section key = "")
    by (unfold INI.String_; now rewrite Hsec, Hkey).
  pose proof (parseConfig_empty_value f section key Hin Hempty) as Hfail.
  unfold main. rewrite Hload.
  destruct (parseConfig (inl f)) as [ok out]. simpl in Hfail. subst ok.
  split; [now exists out|reflexivity].
Qed.

Lemma empty_value_exits_before_listening_witness :
  let general : gmap string string :=
    {[ "database" := "jakk.db"; "secret" := ""; "authheader" := "x-jakk-auth";
       "sslport" := "8443"; "httpport" := "8080"; "sslcert" := "cert.pem";
       "sslkey" := "key.pem"; "httpenabled" := "true"; "sslenabled" := "false" ]} in
  let f : INI.File := <[ "general" := general ]> Sample.config in
  main (mkEnv (inl f) (SQL.mkDB SQL.ReadWrite None) Sample.accept)
  = Exit 1 ("Missing key: 'secret' under section: general" +:+ LF).
Proof.
  intros general f.
  destruct (empty_value_exits_before_listening
              (mkEnv (inl f) (SQL.mkDB SQL.ReadWrite None) Sample.accept)
              f "general" "secret" general eq_refl)
    as ((out & Hexit) & _).
  - unfold required. simpl. tauto.
  - reflexivity.
  - reflexivity.
  - rewrite Hexit. vm_compute in Hexit. now injection Hexit as <-.
Defined.

(** X7. [checkConfig] stops at the first key of its list that reads empty
    and names that key alone in what it prints; it prints nothing when no
    key reads empty. [parseConfig] checks section [smtp] first and does
    not look at [general] once [smtp] has failed. *)
Theorem checkConfig_reports_the_first_empty_key :
  forall (f : INI.File) (section : string) (pre post : list string) (k : string),
    (forall key, In key pre -> INI.String_ f section key <> "") ->
    INI.String_ f section k = "" ->
    checkConfig f section (pre ++ k :: post)
    = (false, "Missing key: '" +:+ k +:+ "' under section: " +:+ section +:+ LF)
    /\ (section = "smtp" -> pre ++ k :: post = smtpKeys ->
        parseConfig (inl f)
        = (false,
           "Missing key: '" +:+ k +:+ "' under section: smtp" +:+ LF)).
Proof.
  intros f section pre post k Hpre Hk.
  pose proof (checkConfig_first_empty f section pre post k Hpre Hk) as Hcheck.
  split; [exact Hcheck|].
  intros -> Hkeys. unfold parseConfig. rewrite <- Hkeys, Hcheck. reflexivity.
Qed.

Lemma checkConfig_reports_the_first_empty_key_witness :
  let f : INI.File :=
    {[ "smtp" := {[ "server" := "mail.example.org"; "port" := "587" ]} ]} in
  parseConfig (inl f)
  = (false, "Missing key: 'username' under section: smtp" +:+ LF).
Proof.
  intros f.
  destruct (checkConfig_reports_the_first_empty_key f "smtp"
              [ "server"; "port" ] [ "password"; "sendto" ] "username")
    as (_ & Hparse).
  - intros key [<- | [<- | []]]; discriminate.
  - reflexivity.
  - now apply Hparse.
Defined.

Lemma main_cases (env : Env) :
  (exists out, main env = Exit 1 out /\ fst (parseConfig (load env)) = false)
  \/ (exists f ls,
        load env = inl f /\ validated f
        /\ main env
           = Serve (mkWorld f (fst (SQL.Exec_create (disk env))) []
                      (smtp_relay env)) routes ls).
Proof.
  unfold main.
  destruct (parseConfig (load env)) as [[|] out] eqn:Hparse.
  - right. destruct (load env) as [f|err] eqn:Hload; [|discriminate Hparse].
    exists f. eexists. split; [reflexivity|]. split.
    + unfold validated. now rewrite Hparse.
    + reflexivity.
  - left. exists out. split; reflexivity.
Qed.

(** X8. [main] gets to serve exactly when [config.ini] was loaded and every
    required key reads non-empty; otherwise it exits, always with code 1.
    It never panics: [sql.Open] does not fail for the driver the program
    imports. When it serves, the handlers are the four registered ones, no
    mail has been sent, and the store is what the [CREATE TABLE] statement
    left, successful or not. *)
Theorem main_serves_iff_the_configuration_is_complete :
  forall env : Env,
    ((exists w ls, main env = Serve w routes ls)
     <-> (exists f,
            load env = inl f
            /\ forall section key,
                 In (section, key) required -> INI.String_ f section key <> ""))
    /\ (forall err, main env <> Panic err)
    /\ (forall code out, main env = Exit code out -> code = 1%Z)
    /\ (forall w mux ls,
          main env = Serve w mux ls ->
          mux = routes /\ outbox w = [] /\ load env = inl (cfg w)
          /\ db w = fst (SQL.Exec_create (disk env))).
Proof.
  intros env.
  destruct (main_cases env) as [(out & Hexit & Hfail) | (f & ls & Hload & Hv & Hserve)].
  - rewrite Hexit. split; [split|].
    + intros (w & ls & H). discriminate H.
    + intros (f & Hload & Hall). rewrite Hload in Hfail.
      rewrite (parseConfig_complete f Hall) in Hfail. discriminate Hfail.
    + split; [discriminate|]. split; [now intros code out' [= <- _]|].
      intros w mux ls H. discriminate H.
  - rewrite Hserve. split; [split|].
    + intros _. exists f. split; [exact Hload|].
      intros section key Hin. now apply validated_required.
    + intros _. now eexists _, ls.
    + split; [discriminate|]. split; [discriminate|].
      intros w mux ls' [= <- <- _]. simpl. now rewrite Hload.
Qed.


(** What two optional listeners amount to. *)
Lemma started_listeners (p t : Listener) (bp bt : bool) :
  p <> t ->
  let ls := (if bp then [ p ] else []) ++ (if bt then [ t ] else []) in
  (In p ls <-> bp = true)
  /\ (In t ls <-> bt = true)
  /\ (forall l, In l ls -> l = p \/ l = t)
  /\ (bp = false -> bt = false -> ls = []).
Proof.
  intros Hne ls. subst ls.
  destruct bp, bt; cbn [app In]; (split; [|split; [|split]]).
  all: try (split; intros; auto; fail).
  all: try (intros; discriminate).
  all: try (intros l [<- | [<- | []]]; auto; fail).
  all: try (intros l [<- | []]; auto; fail).
  all: try (intros l []; fail).
  all: try reflexivity.
  all: try (split; [intros [H | []]; congruence | intros H; discriminate H]).
  all: try (split; [intros [] | intros H; discriminate H]).
Qed.

(** X9. The listeners [main] starts follow the two flags compared with the
    exact text [true]: the plain listener on [:httpport] is started when
    and only when [httpenabled] is [true], the TLS listener on [:sslport]
    with the configured certificate and key when and only when
    [sslenabled] is [true], and nothing else is started. With any other
    values, such as [True] or [yes], a valid configuration leaves [main]
    blocked with no listener at all. *)
Theorem listeners_follow_the_literal_flags :
  forall (env : Env) (w : World) (mux : ServeMux) (ls : list Listener),
    main env = Serve w mux ls ->
    let plain := ListenAndServe (":" +:+ general w "httpport") in
    let tls :=
      ListenAndServeTLS (":" +:+ general w "sslport")
        (general w "sslcert") (general w "sslkey") in
    (In plain ls <-> general w "httpenabled" = "true")
    /\ (In tls ls <-> general w "sslenabled" = "true")
    /\ (forall l, In l ls -> l = plain \/ l = tls)
    /\ (general w "httpenabled" <> "true" ->
        general w "sslenabled" <> "true" -> ls = []).
Proof.
  intros env w mux ls Hmain plain tls.
  unfold main in Hmain.
  destruct (parseConfig (load env)) as [[|] out]; [|discriminate Hmain].
  unfold initDB in Hmain.
  change (SQL.Open "sqlite3" (disk env)) with (@inl SQL.DB SQL.Error (disk env))
    in Hmain.
  cbv beta iota zeta in Hmain.
  injection Hmain as <- _ <-.
  subst plain tls. unfold general. cbn [cfg].
  set (f := loaded (load env)).
  set (p := ListenAndServe _). set (t := ListenAndServeTLS _ _ _).
  assert (Hne : p <> t) by discriminate.
  destruct (started_listeners p t
              (String.eqb (INI.String_ f "general" "httpenabled") "true")
              (String.eqb (INI.String_ f "general" "sslenabled") "true") Hne)
    as (Hp & Ht & Hall & Hnone).
  clearbody p t.
  rewrite String.eqb_eq in Hp, Ht.
  split; [exact Hp|]. split; [exact Ht|]. split; [exact Hall|].
  intros Hp' Ht'. apply Hnone; now apply String.eqb_neq.
Qed.

Lemma listeners_follow_the_literal_flags_witness :
  let env := mkEnv (inl (Sample.config_flags "True" "yes")) (SQL.mkDB SQL.ReadWrite None)
               Sample.accept in
  let w := mkWorld (Sample.config_flags "True" "yes") (SQL.mkDB SQL.ReadWrite (Some []))
             [] Sample.accept in
  main env = Serve w routes [].
Proof.
  intros env w.
  assert (Hmain : exists ls, main env = Serve w routes ls)
    by (eexists; reflexivity).
  destruct Hmain as (ls & Hmain).
  destruct (listeners_follow_the_literal_flags env w routes ls Hmain)
    as (_ & _ & _ & Hnone).
  rewrite Hmain. f_equal.
  apply Hnone; intros H; vm_compute in H; discriminate H.
Defined.

(** ** Which requests change the state *)

Lemma saveHandler_cases (w : World) (r : HTTP.Request) :
  (HTTP.Method r = "POST"
   /\ exists t u d,
        JSON.Decode (HTTP.Body r) "tag" "url" = inl (t, u)
        /\ SQL.Exec_insert (db w) t u = (d, None)
        /\ saveHandler w r = (fmt_Fprint "success", set_db w d))
  \/ (StatusCode (fst (saveHandler w r)) <> HTTP.StatusOK
      /\ snd (saveHandler w r) = w).
Proof.
  destruct (String.eqb_spec (HTTP.Method r) "POST") as [Hm|Hm].
  2:{ right. rewrite (saveHandler_wrong_method w r Hm).
      split; [discriminate|reflexivity]. }
  destruct (JSON.Decode (HTTP.Body r) "tag" "url") as [[t u]|e] eqn:Hdec.
  2:{ right. unfold saveHandler. rewrite Hm, Hdec.
      split; [discriminate|reflexivity]. }
  destruct (SQL.Exec_insert (db w) t u) as [d [e|]] eqn:Hins.
  - right. unfold saveHandler. rewrite Hm, Hdec, Hins.
    split; [discriminate|reflexivity].
  - left. split; [exact Hm|]. exists t, u, d.
    split; [reflexivity|]. split; [exact Hins|].
    unfold saveHandler. now rewrite Hm, Hdec, Hins.
Qed.

Lemma notifyHandler_cases (w : World) (r : HTTP.Request) :
  (HTTP.Method r = "POST"
   /\ exists l b,
        l <> "" /\ b <> ""
        /\ JSON.Decode (HTTP.Body r) "level" "body" = inl (l, b)
        /\ relay w (notification w l b) = None
        /\ notifyHandler w r
           = (fmt_Fprint "success",
              set_outbox w (outbox w ++ [ notification w l b ])))
  \/ (StatusCode (fst (notifyHandler w r)) <> HTTP.StatusOK
      /\ snd (notifyHandler w r) = w).
Proof.
  destruct (String.eqb_spec (HTTP.Method r) "POST") as [Hm|Hm].
  2:{ right. rewrite (notifyHandler_wrong_method w r Hm).
      split; [discriminate|reflexivity]. }
  destruct (JSON.Decode (HTTP.Body r) "level" "body") as [[l b]|e] eqn:Hdec.
  2:{ right. unfold notifyHandler. rewrite Hm, Hdec.
      split; [discriminate|reflexivity]. }
  rewrite (notifyHandler_decoded w r l b Hm Hdec).
  destruct (String.eqb_spec l "") as [Hl|Hl]; simpl.
  { right. split; [discriminate|reflexivity]. }
  destruct (String.eqb_spec b "") as [Hb|Hb]; simpl.
  { right. split; [discriminate|reflexivity]. }
  destruct (relay w (notification w l b)) as [err|] eqn:Hrelay.
  { right. split; [discriminate|reflexivity]. }
  left. split; [exact Hm|]. exists l, b. repeat split; assumption.
Qed.

(** X10. The state changes under a request only if the request is a POST
    to [/puturl] or [/notify] that carries the secret and is answered
    [success]: a save then changes the store alone, by the INSERT of the
    decoded tag and url, and a notification changes the outbox alone. No
    request to [/ip], [/geturl] or an unregistered path, no request without
    the credential and no request answered with an error changes
    anything. *)
Theorem state_changes_only_by_authorized_post :
  forall (w : World) (r : HTTP.Request),
    snd (ServeHTTP routes w r) <> w ->
    HTTP.Method r = "POST"
    /\ credential w r <> ""
    /\ credential w r = secret w
    /\ fst (ServeHTTP routes w r) = fmt_Fprint "success"
    /\ ((HTTP.Path (HTTP.Url r) = "/puturl"
         /\ exists t u d,
              JSON.Decode (HTTP.Body r) "tag" "url" = inl (t, u)
              /\ SQL.Exec_insert (db w) t u = (d, None)
              /\ snd (ServeHTTP routes w r) = set_db w d)
        \/ (HTTP.Path (HTTP.Url r) = "/notify"
            /\ exists l b,
                 JSON.Decode (HTTP.Body r) "level" "body" = inl (l, b)
                 /\ snd (ServeHTTP routes w r)
                    = set_outbox w (outbox w ++ [ notification w l b ]))).
Proof.
  intros w r Hchanged.
  destruct (ServeHTTP_outcome routes w r) as [Hrun | [Hmux | Hmux]];
    [|exfalso; apply Hchanged; now rewrite Hmux
     |exfalso; apply Hchanged; now rewrite Hmux].
  rewrite Hrun in *. clear Hrun.
  destruct (Handler_routes_cases (HTTP.Path (HTTP.Url r)))
    as [(Hp & Hh) | [(Hp & Hh) | [(Hp & Hh) | [(Hp & Hh) | (_ & _ & _ & _ & Hh)]]]];
    rewrite Hh in *.
  - exfalso. now apply Hchanged.
  - destruct (authWrapper_inv notifyHandler w r) as [Hrej | (Hne & Hcred & Hrun)].
    { exfalso. apply Hchanged. now rewrite Hrej. }
    rewrite Hrun in *.
    destruct (notifyHandler_cases w r)
      as [(Hm & l & b & _ & _ & Hdec & _ & Hok) | (_ & Hsame)];
      [|contradiction].
    rewrite Hok. repeat split; try assumption.
    right. split; [exact Hp|]. now exists l, b.
  - destruct (authWrapper_inv saveHandler w r) as [Hrej | (Hne & Hcred & Hrun)].
    { exfalso. apply Hchanged. now rewrite Hrej. }
    rewrite Hrun in *.
    destruct (saveHandler_cases w r)
      as [(Hm & t & u & d & Hdec & Hins & Hok) | (_ & Hsame)];
      [|contradiction].
    rewrite Hok. repeat split; try assumption.
    left. split; [exact Hp|]. now exists t, u, d.
  - exfalso. apply Hchanged. apply retrieveHandler_state.
  - exfalso. now apply Hchanged.
Qed.

Lemma state_changes_only_by_authorized_post_witness :
  let w := Sample.world [] in
  let r := Sample.request "POST" "/puturl"
             (Sample.object2 "tag" "go" "url" "https://go.dev") in
  snd (ServeHTTP routes w r) <> w
  /\ fst (ServeHTTP routes w r) = fmt_Fprint "success".
Proof.
  intros w r.
  assert (Hchanged : snd (ServeHTTP routes w r) <> w)
    by (intros H; apply (f_equal db) in H; vm_compute in H; discriminate H).
  split; [exact Hchanged|].
  now destruct (state_changes_only_by_authorized_post w r Hchanged)
    as (_ & _ & _ & Hok & _).
Defined.

(** ** The store over a run of requests *)

(** One request either leaves the state alone, or adds a row by a
    successful INSERT, or adds a message to the outbox. *)
Lemma ServeHTTP_step (w : World) (r : HTTP.Request) :
  snd (ServeHTTP routes w r) = w
  \/ (exists t u d,
        SQL.Exec_insert (db w) t u = (d, None)
        /\ snd (ServeHTTP routes w r) = set_db w d)
  \/ (exists m, snd (ServeHTTP routes w r) = set_outbox w (outbox w ++ [ m ])).
Proof.
  destruct (ServeHTTP_outcome routes w r) as [-> | [-> | ->]];
    [|now left|now left].
  destruct (Handler_routes_cases (HTTP.Path (HTTP.Url r)))
    as [(_ & Hh) | [(_ & Hh) | [(_ & Hh) | [(_ & Hh) | (_ & _ & _ & _ & Hh)]]]];
    rewrite Hh.
  - now left.
  - destruct (authWrapper_inv notifyHandler w r) as [-> | (_ & _ & ->)];
      [now left|].
    destruct (notifyHandler_cases w r)
      as [(_ & l & b & _ & _ & _ & _ & ->) | (_ & Hsame)]; [|now left].
    right; right. now eexists.
  - destruct (authWrapper_inv saveHandler w r) as [-> | (_ & _ & ->)];
      [now left|].
    destruct (saveHandler_cases w r)
      as [(_ & t & u & d & _ & Hins & ->) | (_ & Hsame)]; [|now left].
    right; left. now exists t, u, d.
  - left. apply retrieveHandler_state.
  - now left.
Qed.

Lemma Exec_insert_appends (rows : list SQL.Entry) (t u : string) (d : SQL.DB) :
  SQL.Exec_insert (SQL.mkDB SQL.ReadWrite (Some rows)) t u = (d, None) ->
  d = SQL.mkDB SQL.ReadWrite (Some (rows ++ [ SQL.mkEntry (SQL.next_id rows) t u ])).
Proof.
  unfold SQL.Exec_insert. simpl.
  destruct (SQL.has_tag t rows); [discriminate|]. now intros [= <-].
Qed.

Lemma ServeHTTP_extends (w : World) (r : HTTP.Request) (rows : list SQL.Entry) :
  holds w rows ->
  exists more,
    holds (snd (ServeHTTP routes w r)) (rows ++ more)
    /\ length more <= 1
    /\ cfg (snd (ServeHTTP routes w r)) = cfg w.
Proof.
  intros Hrows. unfold holds in *.
  destruct (ServeHTTP_step w r) as [-> | [(t & u & d & Hins & ->) | (m & ->)]].
  - exists []. rewrite app_nil_r. simpl. repeat split; [assumption|lia].
  - rewrite Hrows in Hins. apply Exec_insert_appends in Hins. subst d.
    eexists [ _ ]. simpl. repeat split. lia.
  - exists []. rewrite app_nil_r. simpl. repeat split; [assumption|lia].
Qed.

Lemma serve_all_extends (rs : list HTTP.Request) (w : World)
    (rows : list SQL.Entry) :
  holds w rows ->
  exists more,
    holds (serve_all w rs) (rows ++ more)
    /\ length more <= length rs
    /\ cfg (serve_all w rs) = cfg w.
Proof.
  revert w rows. induction rs as [|r rs IH]; intros w rows Hrows.
  - exists []. rewrite app_nil_r. simpl. repeat split; [assumption|lia].
  - destruct (ServeHTTP_extends w r rows Hrows) as (m1 & H1 & Hl1 & Hc1).
    destruct (IH _ _ H1) as (m2 & H2 & Hl2 & Hc2).
    exists (m1 ++ m2). simpl. rewrite app_assoc, length_app.
    repeat split; [exact H2|lia|congruence].
Qed.

(** X11. The table only grows: after any run of requests the rows that
    were in a working store are still there, unchanged and in place,
    followed by at most one new row per request; the configuration is the
    same. No handler updates or deletes a row. *)
Theorem store_is_append_only :
  forall (w : World) (rows : list SQL.Entry) (rs : list HTTP.Request),
    holds w rows ->
    exists more,
      holds (serve_all w rs) (rows ++ more)
      /\ length more <= length rs
      /\ cfg (serve_all w rs) = cfg w.
Proof. intros w rows rs Hrows. now apply serve_all_extends. Qed.

Lemma store_is_append_only_witness :
  exists more,
    holds (serve_all (Sample.world [ SQL.mkEntry 1 "go" "https://go.dev" ])
             [ Sample.request "POST" "/puturl"
                 (Sample.object2 "tag" "go" "url" "https://example.org");
               Sample.request "POST" "/puturl"
                 (Sample.object2 "tag" "rocq" "url" "https://rocq-prover.org") ])
      ([ SQL.mkEntry 1 "go" "https://go.dev" ] ++ more)
    /\ length more <= 2.
Proof.
  destruct (store_is_append_only
              (Sample.world [ SQL.mkEntry 1 "go" "https://go.dev" ])
              [ SQL.mkEntry 1 "go" "https://go.dev" ]
              [ Sample.request "POST" "/puturl"
                  (Sample.object2 "tag" "go" "url" "https://example.org");
                Sample.request "POST" "/puturl"
                  (Sample.object2 "tag" "rocq" "url" "https://rocq-prover.org") ]
              eq_refl)
    as (more & Hrows & Hlen & _).
  exists more. split; [exact Hrows|exact Hlen].
Defined.

(** X12. A url once stored for a tag is the url of that tag for good:
    whatever requests follow, saves of the same tag with another url among
    them, the query for the tag yields the same url, and a request to
    [/geturl] for it (the tag not being empty) is redirected there. *)
Theorem stored_url_is_never_replaced :
  forall (w : World) (rows : list SQL.Entry) (rs : list HTTP.Request)
         (t u : string),
    holds w rows ->
    SQL.QueryRow_url (db w) t = inl u ->
    SQL.QueryRow_url (db (serve_all w rs)) t = inl u
    /\ forall l,
         lookup_request l t -> t <> "" ->
         ServeHTTP routes (serve_all w rs) l
         = (http_Redirect u HTTP.StatusFound, serve_all w rs).
Proof.
  intros w rows rs t u Hrows Hq.
  destruct (serve_all_extends rs w rows Hrows) as (more & Hafter & _ & _).
  assert (Hq' : SQL.QueryRow_url (db (serve_all w rs)) t = inl u).
  { unfold holds in *. rewrite Hafter. apply QueryRow_url_app.
    now rewrite <- Hrows. }
  split; [exact Hq'|].
  intros l Hl Hne. now apply (ServeHTTP_lookup _ l t u).
Qed.

Lemma stored_url_is_never_replaced_witness :
  let w := Sample.world [ SQL.mkEntry 1 "go" "https://go.dev" ] in
  let rs := [ Sample.request "POST" "/puturl"
                (Sample.object2 "tag" "go" "url" "https://example.org");
              Sample.request "POST" "/puturl"
                (Sample.object2 "tag" "rocq" "url" "https://rocq-prover.org") ] in
  ServeHTTP routes (serve_all w rs) (Sample.lookup "go")
  = (http_Redirect "https://go.dev" HTTP.StatusFound, serve_all w rs).
Proof.
  intros w rs.
  destruct (stored_url_is_never_replaced w
              [ SQL.mkEntry 1 "go" "https://go.dev" ] rs "go" "https://go.dev"
              eq_refl eq_refl)
    as (_ & Hlookup).
  apply Hlookup; [split; reflexivity|discriminate].
Defined.

Lemma main_serves_sound_states_witness :
  let env := mkEnv (inl Sample.config) (SQL.mkDB SQL.ReadWrite None) Sample.accept in
  let rs := [ Sample.request "POST" "/puturl"
                (Sample.object2 "tag" "go" "url" "https://go.dev");
              Sample.request "POST" "/puturl"
                (Sample.object2 "tag" "go" "url" "https://example.org");
              Sample.lookup "go" ] in
  sound (serve_all (Sample.world []) rs).
Proof.
  intros env rs.
  assert (Hmain : main env
                  = Serve (Sample.world []) routes [ ListenAndServe ":8080" ])
    by reflexivity.
  apply (main_serves_sound_states env (Sample.world []) routes
           [ ListenAndServe ":8080" ] rs Hmain eq_refl).
  apply NoDup_nil_2.
Defined.

(** ** A store that cannot serve *)

Lemma broken_Exec_insert (d : SQL.DB) (t u : string) :
  broken d -> exists e, SQL.Exec_insert d t u = (d, Some e).
Proof.
  unfold broken, SQL.Exec_insert. intros [Hu | He].
  - rewrite Hu. now eexists.
  - rewrite He. destruct (SQL.access d); now eexists.
Qed.

Lemma broken_QueryRow_url (d : SQL.DB) (t : string) :
  broken d ->
  exists e, e <> SQL.ErrNoRows /\ SQL.QueryRow_url d t = inr e.
Proof.
  unfold broken, SQL.QueryRow_url. intros [Hu | He].
  - rewrite Hu. eexists. split; [|reflexivity]. discriminate.
  - rewrite He. destruct (SQL.access d); (eexists; split; [|reflexivity]);
      discriminate.
Qed.

Lemma broken_serve_all (rs : list HTTP.Request) (w : World) :
  broken (db w) -> db (serve_all w rs) = db w.
Proof.
  revert w. induction rs as [|r rs IH]; intros w Hb; [reflexivity|].
  simpl.
  assert (Hdb : db (snd (ServeHTTP routes w r)) = db w).
  { destruct (ServeHTTP_step w r) as [-> | [(t & u & d & Hins & _) | (m & ->)]];
      [reflexivity| |reflexivity].
    destruct (broken_Exec_insert (db w) t u Hb) as (e & He).
    rewrite He in Hins. discriminate Hins. }
  rewrite IH; [exact Hdb|]. now rewrite Hdb.
Qed.

(** X14. When the database file cannot be opened or the table was never
    created (which is how [initDB] leaves the store when its [CREATE TABLE]
    failed), no request repairs it: the store is the same after any run of
    requests, every authorized save is answered 500 and every lookup of a
    non-empty tag is answered 500 too, not 404, the state unchanged. (A
    database that can be opened for reading only and has its table is not
    in this case.) *)
Theorem broken_store_answers_500_and_stays_broken :
  forall w : World,
    broken (db w) ->
    (forall rs, db (serve_all w rs) = db w)
    /\ (forall r t u,
          validated (cfg w) ->
          save_request w r t u ->
          exists e,
            ServeHTTP routes w r
            = (http_Error (TextErr "Failed to save data: " (SqlError e))
                 HTTP.StatusInternalServerError, w))
    /\ (forall r t,
          lookup_request r t ->
          t <> "" ->
          exists e,
            e <> SQL.ErrNoRows
            /\ ServeHTTP routes w r
               = (http_Error (TextErr "Failed to retrieve data: " (SqlError e))
                    HTTP.StatusInternalServerError, w)).
Proof.
  intros w Hb. split; [|split].
  - intros rs. now apply broken_serve_all.
  - intros r t u Hv Hreq.
    destruct (broken_Exec_insert (db w) t u Hb) as (e & He).
    exists e. rewrite (ServeHTTP_save w r t u Hv Hreq). now rewrite He.
  - intros r t [Hpath Ht] Hne.
    destruct (broken_QueryRow_url (db w) t Hb) as (e & Hnot & He).
    exists e. split; [exact Hnot|].
    unfold ServeHTTP. rewrite Hpath. simpl.
    unfold retrieveHandler. rewrite Ht.
    destruct (String.eqb_spec t ""); [contradiction|].
    rewrite He. now destruct e.
Qed.

Lemma broken_store_answers_500_and_stays_broken_witness :
  let w := mkWorld Sample.config (SQL.mkDB SQL.Unavailable None) [] Sample.accept in
  ServeHTTP routes w (Sample.lookup "go")
  = (http_Error (TextErr "Failed to retrieve data: " (SqlError SQL.ErrCantOpen))
       HTTP.StatusInternalServerError, w).
Proof.
  intros w.
  assert (Hb : broken (db w)) by (now left).
  destruct (broken_store_answers_500_and_stays_broken w Hb) as (_ & _ & Hlookup).
  destruct (Hlookup (Sample.lookup "go") "go") as (e & _ & He).
  - split; reflexivity.
  - discriminate.
  - rewrite He. f_equal. f_equal. f_equal.
    assert (H : ServeHTTP routes w (Sample.lookup "go")
                = (http_Error
                     (TextErr "Failed to retrieve data: "
                        (SqlError SQL.ErrCantOpen))
                     HTTP.StatusInternalServerError, w))
      by reflexivity.
    rewrite He in H. now injection H as ->.
Defined.

(** ** A database that can only be read *)

(** X18. When the database can be opened for reading only and has its
    table, lookups are answered from the table as they are in a working
    store: 302 to the stored url for the first row with the tag, 404 when
    no row has it. Every authorized save is answered 500 with the
    read-only error, and no run of requests changes the store. *)
Theorem read_only_store_answers_lookups_and_refuses_saves :
  forall (w : World) (rows : list SQL.Entry),
    db w = SQL.mkDB SQL.ReadOnly (Some rows) ->
    (forall r t,
       lookup_request r t ->
       t <> "" ->
       ServeHTTP routes w r
       = match find (fun e => String.eqb (SQL.tag e) t) rows with
         | Some e => (http_Redirect (SQL.url e) HTTP.StatusFound, w)
         | None =>
             (http_Error (Text "No URL found for the given tag")
                HTTP.StatusNotFound, w)
         end)
    /\ (forall r t u,
          validated (cfg w) ->
          save_request w r t u ->
          ServeHTTP routes w r
          = (http_Error (TextErr "Failed to save data: " (SqlError SQL.ErrReadOnly))
               HTTP.StatusInternalServerError, w))
    /\ (forall rs, db (serve_all w rs) = db w).
Proof.
  intros w rows Hdb. split; [|split].
  - intros r t [Hpath Ht] Hne.
    unfold ServeHTTP. rewrite Hpath. simpl.
    unfold retrieveHandler. rewrite Ht.
    destruct (String.eqb_spec t ""); [contradiction|].
    unfold SQL.QueryRow_url. rewrite Hdb. simpl.
    now destruct (find _ rows).
  - intros r t u Hv Hreq.
    rewrite (ServeHTTP_save w r t u Hv Hreq).
    unfold SQL.Exec_insert. now rewrite Hdb.
  - intros rs. revert w Hdb.
    induction rs as [|r rs IH]; intros w Hdb; [reflexivity|].
    simpl.
    assert (Hstep : db (snd (ServeHTTP routes w r)) = db w).
    { destruct (ServeHTTP_step w r) as [-> | [(t & u & d & Hins & _) | (m & ->)]];
        [reflexivity| |reflexivity].
      unfold SQL.Exec_insert in Hins. rewrite Hdb in Hins. discriminate Hins. }
    rewrite IH; [exact Hstep|]. now rewrite Hstep.
Qed.

Lemma read_only_store_answers_lookups_and_refuses_saves_witness :
  let rows := [ SQL.mkEntry 1 "go" "https://go.dev" ] in
  let w := mkWorld Sample.config (SQL.mkDB SQL.ReadOnly (Some rows)) []
             Sample.accept in
  ServeHTTP routes w (Sample.lookup "go")
  = (http_Redirect "https://go.dev" HTTP.StatusFound, w)
  /\ ServeHTTP routes w (Sample.lookup "rocq")
     = (http_Error (Text "No URL found for the given tag")
          HTTP.StatusNotFound, w)
  /\ ServeHTTP routes w
       (Sample.request "POST" "/puturl"
          (Sample.object2 "tag" "rocq" "url" "https://rocq-prover.org"))
     = (http_Error (TextErr "Failed to save data: " (SqlError SQL.ErrReadOnly))
          HTTP.StatusInternalServerError, w).
Proof.
  intros rows w.
  destruct (read_only_store_answers_lookups_and_refuses_saves w rows eq_refl)
    as (Hlookup & Hsave & _).
  split; [|split].
  - apply (Hlookup (Sample.lookup "go") "go"); [split; reflexivity|discriminate].
  - apply (Hlookup (Sample.lookup "rocq") "rocq");
      [split; reflexivity|discriminate].
  - apply (Hsave _ "rocq" "https://rocq-prover.org"); [reflexivity|].
    repeat split; reflexivity.
Defined.

(** ** The status codes of each route *)


(** ** Restarting on the same database *)

Lemma Exec_create_existing (rows : list SQL.Entry) :
  SQL.Exec_create (SQL.mkDB SQL.ReadWrite (Some rows))
  = (SQL.mkDB SQL.ReadWrite (Some rows), None).
Proof. reflexivity. Qed.

(** X16. Restarting keeps what was saved: when a server that [main] started
    on a database file it can read and write has served any run of
    requests, and [main] is run again with the same configuration on the
    database as that run left it, it serves again and its store is that database, row for row
    ([CREATE TABLE IF NOT EXISTS] leaves an existing table alone); the
    list of mail handed to the relay starts empty again. *)
Theorem restart_keeps_the_rows :
  forall (env env' : Env) (w : World) (mux : ServeMux) (ls : list Listener)
         (rs : list HTTP.Request),
    main env = Serve w mux ls ->
    SQL.access (disk env) = SQL.ReadWrite ->
    load env' = load env ->
    disk env' = db (serve_all w rs) ->
    exists w' ls',
      main env' = Serve w' routes ls'
      /\ db w' = db (serve_all w rs)
      /\ cfg w' = cfg w
      /\ outbox w' = [].
Proof.
  intros env env' w mux ls rs Hmain Husable Hload Hdisk.
  destruct (main_cases env)
    as [(out & Hexit & _) | (f & ls0 & Hf & Hv & Hserve)].
  { rewrite Hexit in Hmain. discriminate Hmain. }
  rewrite Hserve in Hmain. injection Hmain as <- _ _.
  assert (Hrows : exists rows,
            holds (mkWorld f (fst (SQL.Exec_create (disk env))) []
                     (smtp_relay env)) rows).
  { unfold holds, SQL.Exec_create. rewrite Husable. simpl. now eexists. }
  destruct Hrows as (rows & Hrows).
  destruct (serve_all_extends rs _ rows Hrows) as (more & Hafter & _ & _).
  unfold holds in Hafter.
  destruct (main_cases env')
    as [(out & _ & Hfail) | (f' & ls' & Hf' & _ & Hserve')].
  { rewrite Hload, Hf in Hfail. unfold validated in Hv.
    rewrite Hv in Hfail. discriminate Hfail. }
  exists (mkWorld f' (fst (SQL.Exec_create (disk env'))) [] (smtp_relay env')), ls'.
  split; [exact Hserve'|]. simpl.
  split; [|split; [congruence|reflexivity]].
  rewrite Hdisk, Hafter. reflexivity.
Qed.

Lemma restart_keeps_the_rows_witness :
  let env := mkEnv (inl Sample.config) (SQL.mkDB SQL.ReadWrite None) Sample.accept in
  let rs := [ Sample.request "POST" "/puturl"
                (Sample.object2 "tag" "go" "url" "https://go.dev") ] in
  let env' := mkEnv (inl Sample.config) (db (serve_all (Sample.world []) rs))
                Sample.refuse in
  exists w' ls',
    main env' = Serve w' routes ls'
    /\ db w' = SQL.mkDB SQL.ReadWrite (Some [ SQL.mkEntry 1 "go" "https://go.dev" ]).
Proof.
  intros env rs env'.
  assert (Hmain : main env
                  = Serve (Sample.world []) routes [ ListenAndServe ":8080" ])
    by reflexivity.
  destruct (restart_keeps_the_rows env env' (Sample.world []) routes
              [ ListenAndServe ":8080" ] rs Hmain eq_refl eq_refl eq_refl)
    as (w' & ls' & Hserve & Hdb & _).
  exists w', ls'. split; [exact Hserve|]. rewrite Hdb. reflexivity.
Defined.

(** ** Saves of different tags, in either order *)

Lemma QueryRow_url_two (rows : list SQL.Entry) (i1 i2 : Z)
    (t1 t2 u1 u2 t : string) :
  SQL.QueryRow_url
    (SQL.mkDB SQL.ReadWrite
       (Some ((rows ++ [ SQL.mkEntry i1 t1 u1 ]) ++ [ SQL.mkEntry i2 t2 u2 ]))) t
  = match find (fun e => String.eqb (SQL.tag e) t) rows with
    | Some e => inl (SQL.url e)
    | None =>
        if String.eqb t1 t then inl u1
        else if String.eqb t2 t then inl u2
        else inr SQL.ErrNoRows
    end.
Proof.
  unfold SQL.QueryRow_url. simpl. rewrite !find_tag_app. simpl.
  destruct (find _ rows); [reflexivity|].
  destruct (String.eqb t1 t); [reflexivity|].
  destruct (String.eqb t2 t); reflexivity.
Qed.

(** X17. Saves of two different tags commute as far as lookups go: in a
    working store with neither tag, saving [(t1, u1)] then [(t2, u2)], or
    the other way round, both succeed, and afterwards the query for any
    tag yields the same in both stores (the rows differ in their ids and
    their order only). *)
Theorem saves_of_distinct_tags_commute :
  forall (w : World) (rows : list SQL.Entry) (s1 s2 : HTTP.Request)
         (t1 t2 u1 u2 : string),
    validated (cfg w) ->
    holds w rows ->
    t1 <> t2 ->
    SQL.has_tag t1 rows = false ->
    SQL.has_tag t2 rows = false ->
    save_request w s1 t1 u1 ->
    save_request w s2 t2 u2 ->
    forall t,
      SQL.QueryRow_url (db (serve_all w [ s1; s2 ])) t
      = SQL.QueryRow_url (db (serve_all w [ s2; s1 ])) t.
Proof.
  intros w rows s1 s2 t1 t2 u1 u2 Hv Hrows Hdiff Hf1 Hf2 Hs1 Hs2 t.
  assert (Hsecond : forall a b ua i,
            a <> b -> SQL.has_tag b rows = false ->
            SQL.has_tag b (rows ++ [ SQL.mkEntry i a ua ]) = false).
  { intros a b ua i Hab Hb. rewrite has_tag_app, Hb. unfold SQL.has_tag. simpl.
    destruct (String.eqb_spec a b); [contradiction|reflexivity]. }
  unfold serve_all. simpl.
  rewrite (ServeHTTP_save_fresh w rows s1 t1 u1 Hv Hrows Hf1 Hs1). simpl.
  rewrite (ServeHTTP_save_fresh w rows s2 t2 u2 Hv Hrows Hf2 Hs2). simpl.
  set (rows1 := rows ++ [ SQL.mkEntry (SQL.next_id rows) t1 u1 ]).
  set (rows2 := rows ++ [ SQL.mkEntry (SQL.next_id rows) t2 u2 ]).
  rewrite (ServeHTTP_save_fresh (set_db w (SQL.mkDB SQL.ReadWrite (Some rows1))) rows1
             s2 t2 u2 Hv eq_refl (Hsecond t1 t2 u1 _ Hdiff Hf2) Hs2).
  rewrite (ServeHTTP_save_fresh (set_db w (SQL.mkDB SQL.ReadWrite (Some rows2))) rows2
             s1 t1 u1 Hv eq_refl
             (Hsecond t2 t1 u2 _ (not_eq_sym Hdiff) Hf1) Hs1).
  subst rows1 rows2.
  simpl. rewrite !QueryRow_url_two.
  destruct (find _ rows); [reflexivity|].
  destruct (String.eqb_spec t1 t) as [E1|N1];
    destruct (String.eqb_spec t2 t) as [E2|N2]; try reflexivity.
  congruence.
Qed.

Lemma saves_of_distinct_tags_commute_witness :
  let w := Sample.world [] in
  let s1 := Sample.request "POST" "/puturl"
              (Sample.object2 "tag" "go" "url" "https://go.dev") in
  let s2 := Sample.request "POST" "/puturl"
              (Sample.object2 "tag" "rocq" "url" "https://rocq-prover.org") in
  SQL.QueryRow_url (db (serve_all w [ s1; s2 ])) "rocq"
  = SQL.QueryRow_url (db (serve_all w [ s2; s1 ])) "rocq".
Proof.
  intros w s1 s2.
  apply (saves_of_distinct_tags_commute w [] s1 s2 "go" "rocq"
           "https://go.dev" "https://rocq-prover.org");
    first [ discriminate | reflexivity | (repeat split; reflexivity) ].
Defined.
